(** * engage-ehs/kit, package backoff: retry controller, metrics exporter,
      Retry-After helper.

    A shallow embedding of [backoff.go], [metrics.go] and [errors.go].
    Go's [int] and [time.Duration] are 64-bit signed integers: they are
    values of [Z] and every arithmetic result goes through [wrap64].  The
    wall clock and the state of [math/rand] are threaded explicitly through
    a [World]; a run-time panic is a result of its own. *)

From Stdlib Require Import Ascii String.
From stdpp Require Import base numbers strings gmap list pretty.

Local Open Scope Z_scope.

(** ** Machine integers *)

Definition int_min : Z := - 2 ^ 63.
Definition int_max : Z := 2 ^ 63 - 1.

(** Two's complement reduction of a mathematical integer to 64 bits. *)
Definition wrap64 (z : Z) : Z := (z + 2 ^ 63) `mod` 2 ^ 64 - 2 ^ 63.

Definition in_int (z : Z) : Prop := int_min <= z <= int_max.

(** ** package time *)

Definition Duration := Z.

Definition Nanosecond : Duration := 1.
Definition Millisecond : Duration := 1000000.
Definition Second : Duration := 1000000000.

Definition minDuration : Duration := int_min.
Definition maxDuration : Duration := int_max.

(** An instant, in nanoseconds since the Unix epoch.  Go's [time.Time]
    covers far more than 64 bits of nanoseconds, so instants do not wrap. *)
Definition Time := Z.

(** [t.Sub(u)]: the difference, saturated to the range of [Duration]. *)
Definition Time_Sub (t u : Time) : Duration :=
  if t - u <? minDuration then minDuration
  else if maxDuration <? t - u then maxDuration
  else t - u.

(** ** Results of calls that may panic, and of loops run on fuel *)

Inductive result (A : Type) : Type :=
  | Ok (a : A)
  | Panic (msg : string)
  | OutOfFuel.
Arguments Ok {A} a.
Arguments Panic {A} msg.
Arguments OutOfFuel {A}.

Global Instance result_ret : MRet result := λ A a, Ok a.
Global Instance result_bind : MBind result := λ A B f m,
  match m with
  | Ok a => f a
  | Panic msg => Panic msg
  | OutOfFuel => OutOfFuel
  end.

(** ** Errors *)

(** The error values the package hands out: the two sentinels of package
    [context], and an error made by [fmt.Errorf] from its message. *)
Inductive error : Type :=
  | Canceled
  | DeadlineExceeded
  | errorString (s : string).

Definition Error (e : error) : string :=
  match e with
  | Canceled => "context canceled"
  | DeadlineExceeded => "context deadline exceeded"
  | errorString s => s
  end.

(** ** package context *)

(** What a [context.Context] lets the package observe: its deadline, if
    it carries one, and the error it was cancelled with, if it was. *)
Record Context : Type := mkContext {
  ctx_deadline : option Time;
  ctx_cancelled : option error
}.

Definition Background : Context :=
  {| ctx_deadline := None; ctx_cancelled := None |}.

(** [ctx.Deadline()] *)
Definition Deadline (c : Context) : option Time := ctx_deadline c.

(** [ctx.Err()] read at instant [t]: the cancellation error if any, else
    [DeadlineExceeded] once the deadline has been reached, else nil. *)
Definition ctx_Err (c : Context) (t : Time) : option error :=
  match ctx_cancelled c with
  | Some e => Some e
  | None =>
      match ctx_deadline c with
      | Some dl => if dl <=? t then Some DeadlineExceeded else None
      | None => None
      end
  end.

(** The instant at which a receive from [ctx.Done()] started at [t] can
    proceed; [None] when the channel is never closed. *)
Definition ctx_doneAt (c : Context) (t : Time) : option Time :=
  match ctx_cancelled c with
  | Some _ => Some t
  | None =>
      match ctx_deadline c with
      | Some dl => Some (Z.max t dl)
      | None => None
      end
  end.

(** The [context.CancelFunc] returned by [WithTimeout]. *)
Inductive CancelFunc : Type := cancelTimeout.

(** Calling the cancel function at instant [t]: the first error of a
    context sticks, so this records [Canceled] only on a live context. *)
Definition call_cancel (f : CancelFunc) (c : Context) (t : Time) : Context :=
  match ctx_Err c t with
  | Some _ => c
  | None => {| ctx_deadline := ctx_deadline c; ctx_cancelled := Some Canceled |}
  end.

(** [context.WithTimeout(parent, timeout)] called at instant [t]: the
    child expires at [t + timeout] or with its parent, whichever is first,
    and is cancelled when the parent is. *)
Definition WithTimeout (t : Time) (parent : Context) (timeout : Duration)
  : Context * CancelFunc :=
  let d := t + timeout in
  ({| ctx_deadline :=
        Some (match ctx_deadline parent with
              | Some cur => Z.min cur d
              | None => d
              end);
      ctx_cancelled := ctx_cancelled parent |},
   cancelTimeout).

(** ** The world outside the controller *)

(** The wall clock, and the generator of [math/rand] as the sequence of
    its raw draws with a cursor. *)
Record World : Type := mkWorld {
  now : Time;
  rand_src : nat → Z;
  rand_pos : nat
}.

(** [rand.Intn(n)] for [0 < n]: the next draw, reduced to [[0, n)]. *)
Definition rand_Intn (w : World) (n : Z) : Z * World :=
  (rand_src w (rand_pos w) `mod` n,
   {| now := now w; rand_src := rand_src w; rand_pos := S (rand_pos w) |}).

Definition set_now (w : World) (t : Time) : World :=
  {| now := t; rand_src := rand_src w; rand_pos := rand_pos w |}.

(** ** backoff.go *)

Record Backoff : Type := mkBackoff {
  MaxRetries : Z;
  ctx : Context;
  cancel : option CancelFunc;
  numRetries : Z;
  nextDelay : Duration
}.

(** The timeout [New] falls back to. *)
Definition defaultTimeout : Duration := 64 * Second.

Definition New (c : Context) (retries : Z) (w : World) : Backoff :=
  match Deadline c with
  | None =>
      if retries =? 0 then
        let '(c', cf) := WithTimeout (now w) c defaultTimeout in
        {| MaxRetries := retries; ctx := c'; cancel := Some cf;
           numRetries := 0; nextDelay := 0 |}
      else
        {| MaxRetries := retries; ctx := c; cancel := None;
           numRetries := 0; nextDelay := 0 |}
  | Some _ =>
      {| MaxRetries := retries; ctx := c; cancel := None;
         numRetries := 0; nextDelay := 0 |}
  end.

Definition Ongoing (b : Backoff) (w : World) : bool :=
  bool_decide (ctx_Err (ctx b) (now w) = None)
  && ((MaxRetries b =? 0) || (numRetries b <? MaxRetries b)).

(** [fmt.Errorf("terminated after %d retries", n)] *)
Definition Errorf_terminated (n : Z) : error :=
  errorString ("terminated after " +:+ pretty n +:+ " retries").

Definition Err (b : Backoff) (w : World) : option error :=
  match ctx_Err (ctx b) (now w) with
  | Some e => Some e
  | None =>
      if negb (MaxRetries b =? 0) && (MaxRetries b <=? numRetries b)
      then Some (Errorf_terminated (numRetries b))
      else None
  end.

Definition NumRetries (b : Backoff) : Z := numRetries b.

Definition maxmilli : Z := 1000.

(** [1 << n] at type [time.Duration]: a negative count panics, a count of
    64 or more shifts every bit out. *)
Definition shl1 (n : Z) : result Duration :=
  if n <? 0 then Panic "negative shift amount"
  else Ok (wrap64 (Z.shiftl 1 n)).

Definition NextDelay (b : Backoff) (w : World)
  : result (Duration * Backoff * World) :=
  let n := wrap64 (numRetries b + 1) in
  p ← shl1 n;
  let '(j, w') := rand_Intn w maxmilli in
  let d := wrap64 (wrap64 (p * Second) + wrap64 (j * Millisecond)) in
  Ok (d,
      {| MaxRetries := MaxRetries b; ctx := ctx b; cancel := cancel b;
         numRetries := n; nextDelay := d |},
      w').

(** The [select] of [Wait] and [WaitFor], entered at [now w] with a timer
    of [d]: the receive from [ctx.Done()] against the one from
    [time.After(d)].  Whichever is ready first is taken and the clock
    stands at that instant afterwards; when both are ready together the
    first case of the source is taken.  In the first case the owned cancel
    function, if any, is called. *)
Definition select_Done_After (b : Backoff) (w : World) (d : Duration)
  : Backoff * World :=
  let fire := now w + Z.max 0 d in
  match ctx_doneAt (ctx b) (now w) with
  | Some t =>
      if t <=? fire then
        (match cancel b with
         | Some cf =>
             {| MaxRetries := MaxRetries b; ctx := call_cancel cf (ctx b) t;
                cancel := cancel b; numRetries := numRetries b;
                nextDelay := nextDelay b |}
         | None => b
         end,
         set_now w t)
      else (b, set_now w fire)
  | None => (b, set_now w fire)
  end.

Definition Wait (b : Backoff) (w : World) : result (Backoff * World) :=
  if Ongoing b w then
    '(d, b', w') ← NextDelay b w;
    Ok (select_Done_After b' w' d)
  else Ok (b, w).

Definition WaitFor (d : Duration) (b : Backoff) (w : World)
  : result (Backoff * World) :=
  if d =? 0 then Wait b w
  else if Ongoing b w then
    let b' := {| MaxRetries := MaxRetries b; ctx := ctx b; cancel := cancel b;
                 numRetries := wrap64 (numRetries b + 1);
                 nextDelay := nextDelay b |} in
    let '(j, w') := rand_Intn w maxmilli in
    Ok (select_Done_After b' w' (wrap64 (d + wrap64 (j * Millisecond))))
  else Ok (b, w).

(** ** Callers *)

(** The caller's loop [for retry.Ongoing() { body }], counting its
    iterations, on [fuel] tests of the condition. *)
Fixpoint retry_loop (body : Backoff → World → result (Backoff * World))
    (fuel : nat) (iters : Z) (b : Backoff) (w : World)
  : result (Z * Backoff * World) :=
  match fuel with
  | O => OutOfFuel
  | S fuel' =>
      if Ongoing b w then
        '(b', w') ← body b w;
        retry_loop body fuel' (iters + 1) b' w'
      else Ok (iters, b, w)
  end.

(** A loop body that only asks for the next delay, as the package's test
    of the retry bound does. *)
Definition call_NextDelay (b : Backoff) (w : World) : result (Backoff * World) :=
  '(_, b', w') ← NextDelay b w; Ok (b', w').

(** One call of the public interface. *)
Inductive call : Type :=
  | CallOngoing
  | CallErr
  | CallNumRetries
  | CallNextDelay
  | CallWait
  | CallWaitFor (d : Duration).

Definition do_call (c : call) (b : Backoff) (w : World)
  : result (Backoff * World) :=
  match c with
  | CallOngoing => let _ := Ongoing b w in Ok (b, w)
  | CallErr => let _ := Err b w in Ok (b, w)
  | CallNumRetries => let _ := NumRetries b in Ok (b, w)
  | CallNextDelay => call_NextDelay b w
  | CallWait => Wait b w
  | CallWaitFor d => WaitFor d b w
  end.

Fixpoint do_calls (cs : list call) (b : Backoff) (w : World)
  : result (Backoff * World) :=
  match cs with
  | [] => Ok (b, w)
  | c :: cs' => '(b', w') ← do_call c b w; do_calls cs' b' w'
  end.

(** Every [NextDelay] of the sequence is called on an ongoing controller
    (the other calls test that themselves). *)
Fixpoint guarded (cs : list call) (b : Backoff) (w : World) : bool :=
  match cs with
  | [] => true
  | c :: cs' =>
      (match c with CallNextDelay => Ongoing b w | _ => true end)
      && match do_call c b w with
         | Ok (b', w') => guarded cs' b' w'
         | _ => true
         end
  end.

(** The delay a call returned, if it returned. *)
Definition delay_of (r : result (Duration * Backoff * World)) : option Duration :=
  match r with
  | Ok (d, _, _) => Some d
  | _ => None
  end.

(** What a caller sees when its loop has returned: the iterations, the
    message of [Err], the clock. *)
Definition loop_report (r : result (Z * Backoff * World))
  : option (Z * option string * Time) :=
  match r with
  | Ok (k, b, w) => Some (k, Error <$> Err b w, now w)
  | _ => None
  end.

(** ** metrics.go *)

Inductive ValueType : Type := CounterValue | GaugeValue | UntypedValue.

Record Desc : Type := NewDesc { fqName : string; help : string }.

Definition boMaxRetries : Desc :=
  NewDesc "kit_backoff_retry_max" "Maximum number of retries for backoff".
Definition boNumRetries : Desc :=
  NewDesc "kit_backoff_num_retries" "Number of retries in a backoff".

(** A constant metric.  Its value is the integer handed to [float64]. *)
Record Metric : Type := MustNewConstMetric {
  metric_desc : Desc;
  metric_type : ValueType;
  metric_value : Z
}.

(** [type exporter Backoff]: a struct value, not a pointer to one. *)
Definition exporter : Type := Backoff.

Definition Collect (b : exporter) : list Metric :=
  [ MustNewConstMetric boMaxRetries CounterValue (MaxRetries b);
    MustNewConstMetric boNumRetries CounterValue (numRetries b) ].

(** [Register] receives the controller by value and hands that copy to the
    registerer under the label [name]; a collector already registered
    under the label stays, and the error of the second registration is
    dropped. *)
Definition Register (b : Backoff) (name : string)
    (registerer : gmap string exporter) : gmap string exporter :=
  match registerer !! name with
  | Some _ => registerer
  | None => <[name := b]> registerer
  end.

(** The process around the package: the controllers the callers hold by
    pointer, and prometheus' default registerer. *)
Record Process : Type := mkProcess {
  heap : gmap nat Backoff;
  DefaultRegisterer : gmap string exporter
}.

(** A method with a pointer receiver, called on the controller at [p]. *)
Definition on_pointer (f : Backoff → World → result (Backoff * World))
    (p : nat) (σ : Process) (w : World) : result (Process * World) :=
  match heap σ !! p with
  | None => Panic "nil pointer dereference"
  | Some b =>
      '(b', w') ← f b w;
      Ok ({| heap := <[p := b']> (heap σ);
             DefaultRegisterer := DefaultRegisterer σ |}, w')
  end.

(** [backoff.Register( *p, name)] *)
Definition Register_at (p : nat) (name : string) (σ : Process)
  : result Process :=
  match heap σ !! p with
  | None => Panic "nil pointer dereference"
  | Some b =>
      Ok {| heap := heap σ;
            DefaultRegisterer := Register b name (DefaultRegisterer σ) |}
  end.

(** One collection of the metrics registered under [name]. *)
Definition Gather (name : string) (σ : Process) : option (list Metric) :=
  Collect <$> DefaultRegisterer σ !! name.

(** ** errors.go *)

Record Response : Type := mkResponse {
  StatusCode : Z;
  Header : gmap string (list string)
}.

(** [h.Get(key)] for a key in canonical form: the first value, or the
    empty string. *)
Definition Header_Get (h : gmap string (list string)) (key : string) : string :=
  match h !! key with
  | Some (v :: _) => v
  | _ => ""
  end.

Definition ShouldRetryHTTP (rsp : Response) : bool :=
  (StatusCode rsp =? 429) || (StatusCode rsp `quot` 100 =? 5).

Definition digit_of (c : ascii) : option Z :=
  let n := Z.of_nat (nat_of_ascii c) in
  if (48 <=? n) && (n <=? 57) then Some (n - 48) else None.

Fixpoint digits_value (s : string) (acc : Z) : option Z :=
  match s with
  | EmptyString => Some acc
  | String c s' =>
      match digit_of c with
      | Some d => digits_value s' (10 * acc + d)
      | None => None
      end
  end.

(** [strconv.Atoi], with its error as [None]: an optional sign, then one
    decimal digit or more and nothing else, the value within [int]. *)
Definition Atoi (s : string) : option Z :=
  let '(neg, body) :=
    match s with
    | String "+" r => (false, r)
    | String "-" r => (true, r)
    | _ => (false, s)
    end in
  match body with
  | EmptyString => None
  | _ =>
      match digits_value body 0 with
      | Some n =>
          let v := if neg then - n else n in
          if (int_min <=? v) && (v <=? int_max) then Some v else None
      | None => None
      end
  end.

(** [time_Parse] stands for [time.Parse(time.RFC1123, _)] of the standard
    library, with its error as [None]. *)
Definition RetryAfterHTTP (time_Parse : string → option Time)
    (w : World) (rsp : Response) : Duration :=
  let retry := Header_Get (Header rsp) "Retry-After" in
  match time_Parse retry with
  | Some t => Time_Sub t (now w)
  | None =>
      match Atoi retry with
      | Some d => wrap64 (d * Second)
      | None => 0
      end
  end.

(** ** Error values with a chain, for [errors.As] *)

(** The errors the helpers tell apart: a plain error, a [*pq.Error] with
    its code, the [NetworkError] of the package's example (it has an
    [Error] method and no [Unwrap]), and an error wrapping another, as
    [fmt.Errorf] makes with [%w]. *)
#[warnings="-register-all"] Inductive goerror : Type :=
  | errorsNew (msg : string)
  | pqError (Code : string)
  | NetworkError (ShouldRetry : bool) (Underlying : option goerror)
  | wrapError (msg : string) (err : goerror).

(** [errors.As(err, &pe)] for [pe] a [*pq.Error]: the code of the first
    one on the chain. *)
Fixpoint errors_As_pq (err : goerror) : option string :=
  match err with
  | pqError code => Some code
  | wrapError _ e => errors_As_pq e
  | errorsNew _ | NetworkError _ _ => None
  end.

(** [errors.As(err, &ne)] for [ne] a [NetworkError]: the flag of the
    first one on the chain. *)
Fixpoint errors_As_NetworkError (err : goerror) : option bool :=
  match err with
  | NetworkError r _ => Some r
  | wrapError _ e => errors_As_NetworkError e
  | errorsNew _ | pqError _ => None
  end.

Definition ShouldRetryPostgreSQL (err : option goerror) : bool :=
  match err with
  | None => false
  | Some e =>
      match errors_As_pq e with
      | None => false
      | Some code =>
          if bool_decide (code ∈ ["08000"; "08001"; "08004"; "08006"])
          then true
          else if bool_decide
                    (code ∈ ["25000"; "25P01"; "25P02"; "25P03"; "2D000"])
          then true
          else false
      end
  end.

(** An error wrapped once per message of the list, outermost first. *)
Fixpoint wrap_all (msgs : list string) (e : goerror) : goerror :=
  match msgs with
  | [] => e
  | m :: ms => wrapError m (wrap_all ms e)
  end.

(** The class of an SQLSTATE code: its first two characters. *)
Definition sqlstate_class (code : string) : string :=
  match code with
  | String a (String b _) => String a (String b EmptyString)
  | _ => code
  end.

(** ** example_test.go *)

Definition Minute : Duration := 60 * Second.

Definition shouldretry (err : option goerror) : bool :=
  match err with
  | None => false
  | Some e =>
      match errors_As_NetworkError e with
      | Some r => r
      | None => false
      end
  end.

(** The loop of [Example].  [doremotecall] gives the outcome of each
    attempt by its index; the attempt itself takes no time.  The result
    tells whether the loop ran out (and [Err] is logged) or the function
    returned from inside it, and counts the attempts. *)
Fixpoint Example_loop (doremotecall : nat → option goerror)
    (fuel : nat) (attempt : nat) (b : Backoff) (w : World)
  : result (bool * nat * Backoff * World) :=
  match fuel with
  | O => OutOfFuel
  | S fuel' =>
      if Ongoing b w then
        if negb (shouldretry (doremotecall attempt))
        then Ok (false, S attempt, b, w)
        else
          '(b', w') ← Wait b w;
          Example_loop doremotecall fuel' (S attempt) b' w'
      else Ok (true, attempt, b, w)
  end.

(** [Example]: what is logged, if anything, the attempts made, and the
    world at the end. *)
Definition Example (doremotecall : nat → option goerror)
    (fuel : nat) (w : World)
  : result (option (option error) * nat * World) :=
  let '(c, _) := WithTimeout (now w) Background (1 * Minute) in
  let retry := New c 10 w in
  '(ran_out, attempts, b, w') ← Example_loop doremotecall fuel 0 retry w;
  Ok (if ran_out : bool then Some (Err b w') else None, attempts, w').

(** The state of the loop of [Example] before attempt [k], for a deadline
    [D] one minute after the start. *)
Definition Example_inv (D : Time) (k : nat) (b : Backoff) (w : World) : Prop :=
  MaxRetries b = 10
  ∧ ctx_deadline (ctx b) = Some D ∧ ctx_cancelled (ctx b) = None
  ∧ numRetries b = Z.of_nat k
  ∧ ((k <= 4)%nat →
     (2 ^ (Z.of_nat k + 1) - 2) * Second <= now w - (D - Minute)
     <= (2 ^ (Z.of_nat k + 1) - 2) * Second + Z.of_nat k * (999 * Millisecond))
  ∧ (k = 5%nat → now w = D).

(** ** Sample inputs for the worked examples *)

(** The clock at the epoch, a generator whose draws are the multiples of
    7919. *)
Definition sample_world : World :=
  {| now := 0; rand_src := λ n, 7919 * Z.of_nat n; rand_pos := 0 |}.

(** A date parser that knows one date. *)
Definition sample_Parse (s : string) : option Time :=
  if String.eqb s "Wed, 21 Oct 2015 07:28:00 GMT"
  then Some (1445412480 * Second)
  else None.

Definition response_with (value : string) : Response :=
  {| StatusCode := 429; Header := {["Retry-After" := [value]]} |}.

(** A process holding one fresh controller bounded by three retries. *)
Definition sample_process : Process :=
  {| heap := {[ 0%nat := New Background 3 sample_world ]};
     DefaultRegisterer := ∅ |}.

(** * Properties *)

(** ** Arithmetic of the machine types *)

Lemma wrap64_id (z : Z) : in_int z → wrap64 z = z.
Proof.
  unfold in_int, int_min, int_max, wrap64. intros Hz.
  rewrite Z.mod_small; lia.
Qed.

Lemma wrap64_range (z : Z) : in_int (wrap64 z).
Proof.
  unfold in_int, int_min, int_max, wrap64.
  pose proof (Z.mod_pos_bound (z + 2 ^ 63) (2 ^ 64)). lia.
Qed.

Lemma rand_Intn_range (w : World) (n : Z) : 0 < n → 0 <= (rand_Intn w n).1 < n.
Proof. intros Hn. unfold rand_Intn. simpl. by apply Z.mod_pos_bound. Qed.

Lemma jitter_in_int (w : World) :
  in_int ((rand_Intn w maxmilli).1 * Millisecond).
Proof.
  pose proof (rand_Intn_range w maxmilli) as Hj.
  unfold maxmilli, Millisecond, in_int, int_min, int_max in *. lia.
Qed.

Lemma shl1_nonneg (n : Z) : 0 <= n → shl1 n = Ok (wrap64 (2 ^ n)).
Proof.
  intros Hn. unfold shl1.
  destruct (n <? 0) eqn:E; [apply Z.ltb_lt in E; lia|].
  by rewrite Z.shiftl_1_l.
Qed.

Lemma pow2_le_33 (n : Z) : 0 <= n <= 33 → 1 <= 2 ^ n <= 2 ^ 33.
Proof.
  intros Hn. split.
  - apply (Z.pow_le_mono_r 2 0 n); lia.
  - apply Z.pow_le_mono_r; lia.
Qed.

(** ** What the operations leave alone *)

Lemma select_Done_After_numRetries (b : Backoff) (w : World) (d : Duration) :
  numRetries (select_Done_After b w d).1 = numRetries b.
Proof.
  unfold select_Done_After.
  destruct (ctx_doneAt _ _) as [t|]; [|done].
  destruct (t <=? _); [|done]. by destruct (cancel b).
Qed.

Lemma select_Done_After_MaxRetries (b : Backoff) (w : World) (d : Duration) :
  MaxRetries (select_Done_After b w d).1 = MaxRetries b.
Proof.
  unfold select_Done_After.
  destruct (ctx_doneAt _ _) as [t|]; [|done].
  destruct (t <=? _); [|done]. by destruct (cancel b).
Qed.

Lemma Ongoing_true (b : Backoff) (w : World) :
  Ongoing b w = true ↔
  ctx_Err (ctx b) (now w) = None
  ∧ (MaxRetries b = 0 ∨ numRetries b < MaxRetries b).
Proof.
  unfold Ongoing.
  rewrite andb_true_iff, orb_true_iff, bool_decide_eq_true.
  rewrite Z.eqb_eq, Z.ltb_lt. done.
Qed.

(** [NextDelay] on a count that neither wraps nor makes the shift panic. *)
Lemma NextDelay_Ok (b : Backoff) (w : World) :
  0 <= numRetries b < int_max →
  NextDelay b w =
    let j := (rand_Intn w maxmilli).1 in
    let d := wrap64 (wrap64 (wrap64 (2 ^ (numRetries b + 1)) * Second)
                     + j * Millisecond) in
    Ok (d,
        {| MaxRetries := MaxRetries b; ctx := ctx b; cancel := cancel b;
           numRetries := numRetries b + 1; nextDelay := d |},
        (rand_Intn w maxmilli).2).
Proof.
  intros Hn. unfold NextDelay.
  rewrite (wrap64_id (numRetries b + 1))
    by (unfold in_int, int_min, int_max in *; lia).
  rewrite shl1_nonneg by lia. simpl.
  rewrite (wrap64_id (_ * Millisecond)) by apply jitter_in_int.
  reflexivity.
Qed.

(** Up to a count of 33 the delay is computed without overflow. *)
Lemma delay_no_overflow (n j : Z) :
  0 <= n <= 33 → 0 <= j < maxmilli →
  wrap64 (wrap64 (wrap64 (2 ^ n) * Second) + j * Millisecond)
  = 2 ^ n * Second + j * Millisecond.
Proof.
  intros Hn Hj. pose proof (pow2_le_33 n Hn) as Hp.
  change (2 ^ 33) with 8589934592 in Hp.
  unfold maxmilli in Hj.
  rewrite (wrap64_id (2 ^ n))
    by (unfold in_int, int_min, int_max; lia).
  rewrite (wrap64_id (2 ^ n * Second))
    by (unfold in_int, int_min, int_max, Second; lia).
  apply wrap64_id. unfold in_int, int_min, int_max, Second, Millisecond. lia.
Qed.

Lemma Wait_not_ongoing (b : Backoff) (w : World) :
  Ongoing b w = false → Wait b w = Ok (b, w).
Proof. intros H. unfold Wait. by rewrite H. Qed.

Lemma Wait_ongoing (b : Backoff) (w : World) :
  Ongoing b w = true → 0 <= numRetries b < int_max →
  ∃ d b1 w1,
    NextDelay b w = Ok (d, b1, w1)
    ∧ numRetries b1 = numRetries b + 1
    ∧ MaxRetries b1 = MaxRetries b
    ∧ Wait b w = Ok (select_Done_After b1 w1 d).
Proof.
  intros Hon Hn. unfold Wait. rewrite Hon.
  rewrite (NextDelay_Ok b w Hn). cbv zeta.
  eexists _, _, _. split; [reflexivity|]. by simpl.
Qed.

Lemma WaitFor_not_ongoing (d : Duration) (b : Backoff) (w : World) :
  Ongoing b w = false → WaitFor d b w = Ok (b, w).
Proof.
  intros H. unfold WaitFor. destruct (d =? 0).
  - by apply Wait_not_ongoing.
  - by rewrite H.
Qed.

(** C5: in every state [Err] is nil exactly when [Ongoing] holds; the error
    of the deadline source, whatever it is, is returned as it is and before
    the count is looked at; and a controller that stopped with a live
    deadline source reports the retry-exhausted error. *)
Theorem Err_nil_iff_Ongoing (b : Backoff) (w : World) :
  (Err b w = None ↔ Ongoing b w = true)
  ∧ (∀ e, ctx_Err (ctx b) (now w) = Some e → Err b w = Some e)
  ∧ (ctx_Err (ctx b) (now w) = None → Ongoing b w = false →
     Err b w = Some (Errorf_terminated (numRetries b))).
Proof.
  unfold Err, Ongoing.
  destruct (ctx_Err (ctx b) (now w)) as [e|] eqn:Hc.
  - split; [|split].
    + rewrite bool_decide_eq_false_2 by done. simpl. split; discriminate.
    + by intros e' [= ->].
    + discriminate.
  - rewrite bool_decide_eq_true_2 by done. simpl.
    destruct (MaxRetries b =? 0) eqn:Hm; simpl.
    + split; [done|]. split; [discriminate|]. discriminate.
    + destruct (numRetries b <? MaxRetries b) eqn:Hlt.
      * apply Z.ltb_lt in Hlt.
        destruct (MaxRetries b <=? numRetries b) eqn:Hle;
          [apply Z.leb_le in Hle; lia|].
        split; [done|]. split; [discriminate|]. discriminate.
      * apply Z.ltb_ge in Hlt.
        destruct (MaxRetries b <=? numRetries b) eqn:Hle;
          [|apply Z.leb_gt in Hle; lia].
        split; [split; discriminate|]. split; [discriminate|]. done.
Qed.

(** C10: a negative bound is accepted by [New] as it is, with the caller's
    source and no deadline of the controller's own; the controller is not
    ongoing from the start and reports "terminated after 0 retries". *)
Theorem New_negative_retries (c : Context) (retries : Z) (w : World) :
  retries < 0 → ctx_Err c (now w) = None →
  ctx (New c retries w) = c
  ∧ cancel (New c retries w) = None
  ∧ MaxRetries (New c retries w) = retries
  ∧ Ongoing (New c retries w) w = false
  ∧ Err (New c retries w) w = Some (errorString "terminated after 0 retries").
Proof.
  intros Hneg Hlive.
  assert (Hnew : New c retries w =
            {| MaxRetries := retries; ctx := c; cancel := None;
               numRetries := 0; nextDelay := 0 |}).
  { unfold New. destruct (Deadline c); [done|].
    destruct (retries =? 0) eqn:E; [apply Z.eqb_eq in E; lia|done]. }
  rewrite Hnew. repeat split.
  - unfold Ongoing. simpl. rewrite Hlive.
    destruct (retries =? 0) eqn:E; [apply Z.eqb_eq in E; lia|].
    destruct (0 <? retries) eqn:E'; [apply Z.ltb_lt in E'; lia|].
    apply andb_false_r.
  - unfold Err. simpl. rewrite Hlive.
    destruct (retries =? 0) eqn:E; [apply Z.eqb_eq in E; lia|].
    destruct (retries <=? 0) eqn:E'; [|apply Z.leb_gt in E'; lia].
    reflexivity.
Qed.

Lemma New_negative_retries_witness :
  ctx (New Background (-3) sample_world) = Background
  ∧ cancel (New Background (-3) sample_world) = None
  ∧ MaxRetries (New Background (-3) sample_world) = -3
  ∧ Ongoing (New Background (-3) sample_world) sample_world = false
  ∧ Err (New Background (-3) sample_world) sample_world
    = Some (errorString "terminated after 0 retries").
Proof.
  apply (New_negative_retries Background (-3) sample_world);
    [lia | reflexivity].
Defined.

(** C4: one call of [Wait], or of [WaitFor] with any duration, adds
    exactly one to the count of an ongoing controller, and returns at once
    with nothing changed on a controller that is not ongoing. *)
Theorem Wait_WaitFor_increment_once (d : Duration) (b : Backoff) (w : World) :
  0 <= numRetries b < int_max →
  (Ongoing b w = true →
   ∃ b1 w1 b2 w2,
     Wait b w = Ok (b1, w1) ∧ numRetries b1 = numRetries b + 1
     ∧ WaitFor d b w = Ok (b2, w2) ∧ numRetries b2 = numRetries b + 1)
  ∧ (Ongoing b w = false →
     Wait b w = Ok (b, w) ∧ WaitFor d b w = Ok (b, w)).
Proof.
  intros Hn. split; intros Hon.
  - destruct (Wait_ongoing b w Hon Hn) as (dl & b1 & w1 & _ & Hnum & _ & HW).
    assert (HWn : ∃ b' w', Wait b w = Ok (b', w')
                           ∧ numRetries b' = numRetries b + 1).
    { exists (select_Done_After b1 w1 dl).1, (select_Done_After b1 w1 dl).2.
      split; [by rewrite HW, <- surjective_pairing|].
      by rewrite select_Done_After_numRetries. }
    destruct HWn as (b' & w' & HW' & Hb').
    exists b', w'. unfold WaitFor. destruct (d =? 0).
    + exists b', w'. done.
    + rewrite Hon.
      destruct (rand_Intn w maxmilli) as [j wj].
      eexists _, _. split; [done|]. split; [done|].
      split; [apply f_equal, surjective_pairing|].
      rewrite select_Done_After_numRetries. simpl.
      apply wrap64_id. unfold in_int, int_min, int_max in *. lia.
  - split; [by apply Wait_not_ongoing | by apply WaitFor_not_ongoing].
Qed.

Lemma Wait_WaitFor_increment_once_witness :
  (Ongoing (New Background 3 sample_world) sample_world = true →
   ∃ b1 w1 b2 w2,
     Wait (New Background 3 sample_world) sample_world = Ok (b1, w1)
     ∧ numRetries b1 = numRetries (New Background 3 sample_world) + 1
     ∧ WaitFor (5 * Second) (New Background 3 sample_world) sample_world
       = Ok (b2, w2)
     ∧ numRetries b2 = numRetries (New Background 3 sample_world) + 1)
  ∧ (Ongoing (New Background 3 sample_world) sample_world = false →
     Wait (New Background 3 sample_world) sample_world
     = Ok (New Background 3 sample_world, sample_world)
     ∧ WaitFor (5 * Second) (New Background 3 sample_world) sample_world
       = Ok (New Background 3 sample_world, sample_world)).
Proof.
  apply (Wait_WaitFor_increment_once (5 * Second)
           (New Background 3 sample_world) sample_world).
  simpl. unfold int_max. lia.
Defined.

(** C7: [WaitFor] with the zero duration is [Wait]: the same result in
    every state.  On an ongoing controller it adds one to the count, once,
    and sleeps for the exponential delay of that count plus the jitter
    (here shown where the deadline source never fires and the delay does
    not overflow), which is at least two seconds and not an empty wait. *)
Theorem WaitFor_zero_is_Wait (b : Backoff) (w : World) :
  WaitFor 0 b w = Wait b w
  ∧ (Ongoing b w = true → 0 <= numRetries b <= 32 →
     ∃ b' w',
       WaitFor 0 b w = Ok (b', w')
       ∧ numRetries b' = numRetries b + 1
       ∧ (ctx_doneAt (ctx b) (now w) = None →
          now w' = now w + (2 ^ (numRetries b + 1) * Second
                            + (rand_Intn w maxmilli).1 * Millisecond)
          ∧ now w + 2 * Second <= now w')).
Proof.
  split; [reflexivity|]. intros Hon Hn.
  change (WaitFor 0 b w) with (Wait b w). unfold Wait. rewrite Hon.
  rewrite NextDelay_Ok by (unfold int_max; lia). cbv zeta.
  pose proof (rand_Intn_range w maxmilli eq_refl) as Hj.
  rewrite delay_no_overflow by (done || lia).
  set (d := 2 ^ (numRetries b + 1) * Second + _).
  set (b1 := mkBackoff _ _ _ _ _).
  exists (select_Done_After b1 (rand_Intn w maxmilli).2 d).1,
         (select_Done_After b1 (rand_Intn w maxmilli).2 d).2.
  split; [simpl; by rewrite <- surjective_pairing|].
  split; [by rewrite select_Done_After_numRetries|].
  intros Hnever. unfold select_Done_After. simpl. rewrite Hnever. simpl.
  assert (2 * Second <= d).
  { unfold d. pose proof (pow2_le_33 (numRetries b + 1)) as Hp.
    assert (2 ^ 1 <= 2 ^ (numRetries b + 1))
      by (apply Z.pow_le_mono_r; lia).
    unfold Second, Millisecond, maxmilli in *. lia. }
  unfold Second in *. lia.
Qed.

(** C3, as the code has it: [NextDelay] adds one to the count first and
    returns two to the power of the count it has just reached, in seconds,
    plus [rand.Intn(1000)] milliseconds, a jitter in [[0, 1000)]; this
    holds while the new count is at most 33, beyond which the 64-bit
    nanosecond value overflows.  The first call on a fresh controller
    returns a base delay of two seconds. *)
Theorem NextDelay_doubling (b : Backoff) (w : World) :
  0 <= numRetries b <= 32 →
  let j := (rand_Intn w maxmilli).1 in
  let d := 2 ^ (numRetries b + 1) * Second + j * Millisecond in
  0 <= j < maxmilli
  ∧ NextDelay b w =
      Ok (d,
          {| MaxRetries := MaxRetries b; ctx := ctx b; cancel := cancel b;
             numRetries := numRetries b + 1; nextDelay := d |},
          (rand_Intn w maxmilli).2)
  ∧ (numRetries b = 0 → d = 2 * Second + j * Millisecond).
Proof.
  intros Hn j d.
  assert (Hj : 0 <= j < maxmilli) by (apply rand_Intn_range; done).
  split; [done|]. split.
  - rewrite NextDelay_Ok by (unfold int_max; lia). cbv zeta.
    fold j. rewrite delay_no_overflow by (done || lia). reflexivity.
  - intros H0. unfold d. by rewrite H0.
Qed.

Lemma NextDelay_doubling_witness :
  let b := New Background 10 sample_world in
  let j := (rand_Intn sample_world maxmilli).1 in
  let d := 2 ^ (numRetries b + 1) * Second + j * Millisecond in
  0 <= j < maxmilli
  ∧ NextDelay b sample_world =
      Ok (d,
          {| MaxRetries := MaxRetries b; ctx := ctx b; cancel := cancel b;
             numRetries := numRetries b + 1; nextDelay := d |},
          (rand_Intn sample_world maxmilli).2)
  ∧ (numRetries b = 0 → d = 2 * Second + j * Millisecond).
Proof.
  apply (NextDelay_doubling (New Background 10 sample_world) sample_world).
  simpl. lia.
Defined.

(** Past a count of 33 the doubling is lost: the 34th delay is negative. *)
Example NextDelay_overflows_at_34 :
  delay_of (NextDelay (mkBackoff 0 Background None 33 0) sample_world)
  = Some (-1266874889709551616).
Proof. reflexivity. Qed.

(** C3 as the specification words it does not hold: the first delay of a fresh
    controller is two seconds, which is not one second plus a jitter below
    one second. *)
Lemma NextDelay_first_delay_not_one_second :
  numRetries (New Background 10 sample_world) = 0
  ∧ delay_of (NextDelay (New Background 10 sample_world) sample_world)
    = Some (2 * Second)
  ∧ ∀ j, 0 <= j < maxmilli → 2 * Second ≠ 2 ^ 0 * Second + j * Millisecond.
Proof.
  split; [reflexivity|]. split; [reflexivity|].
  intros j Hj. unfold maxmilli, Second, Millisecond in *. lia.
Qed.

(** ** The loop bounded by the count *)

(** A controller with a live deadline source and a non-zero bound that the
    count has reached. *)
Lemma exhausted (b : Backoff) (w : World) :
  ctx_Err (ctx b) (now w) = None →
  MaxRetries b ≠ 0 → MaxRetries b <= numRetries b →
  Ongoing b w = false ∧ Err b w = Some (Errorf_terminated (numRetries b)).
Proof.
  intros Hlive Hm Hle. unfold Ongoing, Err. rewrite Hlive.
  destruct (MaxRetries b =? 0) eqn:E; [apply Z.eqb_eq in E; lia|].
  destruct (numRetries b <? MaxRetries b) eqn:E1; [apply Z.ltb_lt in E1; lia|].
  destruct (MaxRetries b <=? numRetries b) eqn:E2; [|apply Z.leb_gt in E2; lia].
  done.
Qed.

Lemma call_NextDelay_Ok (b : Backoff) (w : World) :
  0 <= numRetries b < int_max →
  ∃ d,
    call_NextDelay b w =
      Ok ({| MaxRetries := MaxRetries b; ctx := ctx b; cancel := cancel b;
             numRetries := numRetries b + 1; nextDelay := d |},
          (rand_Intn w maxmilli).2).
Proof.
  intros Hn. unfold call_NextDelay. rewrite NextDelay_Ok by done.
  cbv zeta. eexists. reflexivity.
Qed.

(** From any count below the bound, with a deadline source that never
    fires, the loop runs once per missing retry and stops at the bound. *)
Lemma retry_loop_NextDelay (fuel : nat) :
  ∀ (iters : Z) (b : Backoff) (w : World),
    ctx_deadline (ctx b) = None → ctx_cancelled (ctx b) = None →
    0 <= numRetries b <= MaxRetries b → 0 < MaxRetries b <= int_max →
    (Z.to_nat (MaxRetries b - numRetries b) < fuel)%nat →
    ∃ b' w',
      retry_loop call_NextDelay fuel iters b w
      = Ok (iters + (MaxRetries b - numRetries b), b', w')
      ∧ numRetries b' = MaxRetries b
      ∧ MaxRetries b' = MaxRetries b
      ∧ ctx b' = ctx b
      ∧ now w' = now w.
Proof.
  induction fuel as [|fuel IH]; intros iters b w Hdl Hcc Hn Hm Hfuel; [lia|].
  simpl.
  assert (Hlive : ∀ t, ctx_Err (ctx b) t = None)
    by (intros t; unfold ctx_Err; by rewrite Hcc, Hdl).
  destruct (Ongoing b w) eqn:Hon.
  - apply Ongoing_true in Hon as [_ [H0|Hlt]]; [lia|].
    destruct (call_NextDelay_Ok b w) as [d Hcall]; [lia|].
    rewrite Hcall. unfold mbind, result_bind.
    set (b1 := mkBackoff _ _ _ _ _).
    destruct (IH (iters + 1) b1 (rand_Intn w maxmilli).2)
      as (b' & w' & Hloop & Hnum & Hmax & Hctx & Hnow);
      try done; simpl; try lia.
    exists b', w'. simpl in *. rewrite Hloop.
    repeat split; try done. f_equal. f_equal. f_equal. lia.
  - exists b, w.
    assert (numRetries b = MaxRetries b) as Heq.
    { destruct (decide (numRetries b < MaxRetries b)) as [Hlt|]; [|lia].
      assert (Ongoing b w = true) by (apply Ongoing_true; auto).
      congruence. }
    repeat split; try done. f_equal. f_equal. f_equal. lia.
Qed.

(** C1: built with a bound [N > 0] on a deadline source that never
    expires, the loop [for retry.Ongoing() { retry.NextDelay() }] returns
    after exactly [N] iterations, with the count at [N], the controller no
    longer ongoing, and [Err] the error "terminated after N retries". *)
Theorem count_bounded_termination
    (N : Z) (c : Context) (w : World) (fuel : nat) :
  0 < N <= int_max →
  ctx_deadline c = None → ctx_cancelled c = None →
  (Z.to_nat N < fuel)%nat →
  ∃ b' w',
    retry_loop call_NextDelay fuel 0 (New c N w) w = Ok (N, b', w')
    ∧ numRetries b' = N
    ∧ Ongoing b' w' = false
    ∧ Err b' w' = Some (Errorf_terminated N)
    ∧ Error (Errorf_terminated N)
      = "terminated after " +:+ pretty N +:+ " retries".
Proof.
  intros HN Hdl Hcc Hfuel.
  assert (Hnew : New c N w =
            {| MaxRetries := N; ctx := c; cancel := None;
               numRetries := 0; nextDelay := 0 |}).
  { unfold New, Deadline. rewrite Hdl.
    destruct (N =? 0) eqn:E; [apply Z.eqb_eq in E; lia|done]. }
  rewrite Hnew.
  destruct (retry_loop_NextDelay fuel 0 (mkBackoff N c None 0 0) w)
    as (b' & w' & Hloop & Hnum & Hmax & Hctx & Hnow);
    simpl; try done; try lia.
  simpl in *. exists b', w'.
  replace (0 + (N - 0)) with N in Hloop by lia.
  assert (Hlive : ctx_Err (ctx b') (now w') = None)
    by (unfold ctx_Err; by rewrite Hctx, Hcc, Hdl).
  split; [done|]. split; [done|].
  destruct (exhausted b' w') as [Hoff Herr]; try lia; try done.
  rewrite Hoff, Herr, Hnum. done.
Qed.

Lemma count_bounded_termination_witness :
  ∃ b' w',
    retry_loop call_NextDelay 4 0 (New Background 3 sample_world) sample_world
    = Ok (3, b', w')
    ∧ numRetries b' = 3
    ∧ Ongoing b' w' = false
    ∧ Err b' w' = Some (Errorf_terminated 3)
    ∧ Error (Errorf_terminated 3)
      = "terminated after " +:+ pretty 3 +:+ " retries".
Proof.
  apply (count_bounded_termination 3 Background sample_world 4);
    [unfold int_max; lia | reflexivity | reflexivity | simpl; lia].
Defined.

(** ** Sequences of calls *)

Lemma WaitFor_ongoing (d : Duration) (b : Backoff) (w : World) :
  d ≠ 0 → Ongoing b w = true → in_int (numRetries b + 1) →
  ∃ b' w',
    WaitFor d b w = Ok (b', w')
    ∧ numRetries b' = numRetries b + 1
    ∧ MaxRetries b' = MaxRetries b.
Proof.
  intros Hd Hon Hn. unfold WaitFor.
  destruct (d =? 0) eqn:E; [apply Z.eqb_eq in E; done|].
  rewrite Hon. destruct (rand_Intn w maxmilli) as [j wj].
  eexists _, _. split; [apply f_equal, surjective_pairing|].
  rewrite select_Done_After_numRetries, select_Done_After_MaxRetries.
  simpl. by rewrite wrap64_id.
Qed.

(** One call keeps a count that lies within a positive bound there, and
    does not lower it, provided [NextDelay] is only called while ongoing. *)
Lemma do_call_within_bound (c : call) (b : Backoff) (w : World) :
  0 < MaxRetries b <= int_max → 0 <= numRetries b <= MaxRetries b →
  (c = CallNextDelay → Ongoing b w = true) →
  ∃ b' w',
    do_call c b w = Ok (b', w')
    ∧ MaxRetries b' = MaxRetries b
    ∧ numRetries b <= numRetries b' <= MaxRetries b.
Proof.
  intros Hm Hn Hguard.
  assert (Hstay : ∃ b' w', Ok (b, w) = Ok (b', w')
            ∧ MaxRetries b' = MaxRetries b
            ∧ numRetries b <= numRetries b' <= MaxRetries b).
  { exists b, w. repeat split; try done; lia. }
  destruct c as [| | | | |d]; simpl; try done.
  - specialize (Hguard eq_refl).
    pose proof Hguard as Hon.
    apply Ongoing_true in Hon as [_ [H0|Hlt]]; [lia|].
    destruct (call_NextDelay_Ok b w) as [dl Hcall]; [lia|].
    rewrite Hcall. eexists _, _. split; [done|]. simpl. lia.
  - destruct (Ongoing b w) eqn:Hon.
    + pose proof Hon as Hon'.
      apply Ongoing_true in Hon' as [_ [H0|Hlt]]; [lia|].
      destruct (Wait_ongoing b w Hon) as (dl & b1 & w1 & _ & Hnum & Hmax & HW);
        [lia|].
      rewrite HW.
      exists (select_Done_After b1 w1 dl).1, (select_Done_After b1 w1 dl).2.
      split; [apply f_equal, surjective_pairing|].
      rewrite select_Done_After_numRetries, select_Done_After_MaxRetries. lia.
    + by rewrite Wait_not_ongoing.
  - destruct (Ongoing b w) eqn:Hon.
    + pose proof Hon as Hon'.
      apply Ongoing_true in Hon' as [_ [H0|Hlt]]; [lia|].
      destruct (decide (d = 0)) as [->|Hd].
      * change (WaitFor 0 b w) with (Wait b w).
        destruct (Wait_ongoing b w Hon)
          as (dl & b1 & w1 & _ & Hnum & Hmax & HW); [lia|].
        rewrite HW.
        exists (select_Done_After b1 w1 dl).1, (select_Done_After b1 w1 dl).2.
        split; [apply f_equal, surjective_pairing|].
        rewrite select_Done_After_numRetries, select_Done_After_MaxRetries.
        lia.
      * destruct (WaitFor_ongoing d b w) as (b' & w' & HW & Hnum & Hmax);
          try done.
        { unfold in_int, int_min, int_max in *. lia. }
        exists b', w'. split; [done|]. lia.
    + by rewrite WaitFor_not_ongoing.
Qed.

Lemma do_calls_within_bound (cs : list call) :
  ∀ (b : Backoff) (w : World),
    0 < MaxRetries b <= int_max → 0 <= numRetries b <= MaxRetries b →
    guarded cs b w = true →
    ∃ b' w',
      do_calls cs b w = Ok (b', w')
      ∧ MaxRetries b' = MaxRetries b
      ∧ numRetries b <= numRetries b' <= MaxRetries b.
Proof.
  induction cs as [|c cs IH]; intros b w Hm Hn Hg.
  - exists b, w. repeat split; try done; lia.
  - simpl in Hg. apply andb_true_iff in Hg as [Hc Hg].
    destruct (do_call_within_bound c b w Hm Hn)
      as (b1 & w1 & Hcall & Hmax & Hnum).
    { by intros ->. }
    rewrite Hcall in Hg.
    destruct (IH b1 w1) as (b2 & w2 & Hcalls & Hmax2 & Hnum2);
      [lia | lia | done |].
    exists b2, w2. simpl. rewrite Hcall. unfold mbind, result_bind.
    split; [done|]. split; [lia|]. lia.
Qed.

Lemma guarded_app (cs1 cs2 : list call) :
  ∀ (b : Backoff) (w : World),
    guarded (cs1 ++ cs2) b w = true →
    guarded cs1 b w = true
    ∧ ∀ b1 w1, do_calls cs1 b w = Ok (b1, w1) → guarded cs2 b1 w1 = true.
Proof.
  induction cs1 as [|c cs1 IH]; intros b w Hg; simpl in *.
  - split; [done|]. by intros b1 w1 [= <- <-].
  - apply andb_true_iff in Hg as [Hc Hg]. rewrite Hc. simpl.
    destruct (do_call c b w) as [[b' w']| |]; simpl.
    + destruct (IH b' w' Hg) as [H1 H2]. done.
    + split; [done|]. discriminate.
    + split; [done|]. discriminate.
Qed.

Lemma do_calls_app (cs1 cs2 : list call) :
  ∀ (b : Backoff) (w : World) (b1 : Backoff) (w1 : World),
    do_calls cs1 b w = Ok (b1, w1) →
    do_calls (cs1 ++ cs2) b w = do_calls cs2 b1 w1.
Proof.
  induction cs1 as [|c1 cs1 IH]; intros b w b1 w1 H1; simpl in *.
  - by injection H1 as -> ->.
  - destruct (do_call c1 b w) as [[b' w']| |]; simpl in *; try done.
    by apply IH.
Qed.

(** C2, as the code has it: on a controller built with a bound [N > 0],
    along every sequence of calls of [Ongoing], [Err], [NumRetries],
    [Wait], [WaitFor], and of [NextDelay] made while the controller is
    ongoing, every call returns and the count never goes down and never
    passes [N]: at any two points of the sequence, in order, the counts
    [n1] and [n2] satisfy [0 <= n1 <= n2 <= N]. *)
Theorem retryCount_monotone_bounded
    (c : Context) (N : Z) (w : World) (cs1 cs2 : list call) :
  0 < N <= int_max →
  guarded (cs1 ++ cs2) (New c N w) w = true →
  ∃ b1 w1 b2 w2,
    do_calls cs1 (New c N w) w = Ok (b1, w1)
    ∧ do_calls cs2 b1 w1 = Ok (b2, w2)
    ∧ do_calls (cs1 ++ cs2) (New c N w) w = Ok (b2, w2)
    ∧ 0 <= numRetries b1 <= numRetries b2
    ∧ numRetries b2 <= N.
Proof.
  intros HN Hg.
  assert (Hmax : MaxRetries (New c N w) = N).
  { unfold New. destruct (Deadline c); [done|]. by destruct (N =? 0). }
  assert (Hnum : numRetries (New c N w) = 0).
  { unfold New. destruct (Deadline c); [done|]. by destruct (N =? 0). }
  destruct (guarded_app cs1 cs2 _ _ Hg) as [Hg1 Hg2].
  destruct (do_calls_within_bound cs1 (New c N w) w)
    as (b1 & w1 & H1 & Hm1 & Hn1); [lia | lia | done |].
  destruct (do_calls_within_bound cs2 b1 w1)
    as (b2 & w2 & H2 & Hm2 & Hn2); [lia | lia | by apply Hg2 |].
  exists b1, w1, b2, w2. split; [done|]. split; [done|].
  split; [|lia].
  by rewrite (do_calls_app cs1 cs2 _ _ _ _ H1).
Qed.

Lemma retryCount_monotone_bounded_witness :
  ∃ b1 w1 b2 w2,
    do_calls [CallOngoing; CallWait; CallErr]
      (New Background 3 sample_world) sample_world = Ok (b1, w1)
    ∧ do_calls [CallWaitFor (5 * Second); CallNextDelay; CallWait; CallNumRetries]
        b1 w1 = Ok (b2, w2)
    ∧ do_calls ([CallOngoing; CallWait; CallErr]
                ++ [CallWaitFor (5 * Second); CallNextDelay; CallWait;
                    CallNumRetries])
        (New Background 3 sample_world) sample_world = Ok (b2, w2)
    ∧ 0 <= numRetries b1 <= numRetries b2
    ∧ numRetries b2 <= 3.
Proof.
  apply (retryCount_monotone_bounded Background 3 sample_world
           [CallOngoing; CallWait; CallErr]
           [CallWaitFor (5 * Second); CallNextDelay; CallWait; CallNumRetries]);
    [unfold int_max; lia | reflexivity].
Defined.

(** C2 as the specification words it does not hold: [NextDelay] is public and adds
    one whatever the state, so two calls on a controller bounded by one
    retry leave the count at two. *)
Lemma NextDelay_passes_MaxRetries :
  ∃ b' w',
    do_calls [CallNextDelay; CallNextDelay]
      (New Background 1 sample_world) sample_world = Ok (b', w')
    ∧ MaxRetries b' = 1
    ∧ numRetries b' = 2.
Proof. eexists _, _. split; [reflexivity|]. split; reflexivity. Qed.

(** ** The loop bounded by the deadline *)

Lemma ctx_Err_expired (c : Context) (D t : Time) :
  ctx_deadline c = Some D → ctx_cancelled c = None → D <= t →
  ctx_Err c t = Some DeadlineExceeded.
Proof.
  intros Hdl Hcc Hle. unfold ctx_Err. rewrite Hcc, Hdl.
  destruct (D <=? t) eqn:E; [done|apply Z.leb_gt in E; lia].
Qed.

Lemma ctx_Err_pending (c : Context) (D t : Time) :
  ctx_deadline c = Some D → ctx_cancelled c = None → t < D →
  ctx_Err c t = None.
Proof.
  intros Hdl Hcc Hlt. unfold ctx_Err. rewrite Hcc, Hdl.
  destruct (D <=? t) eqn:E; [apply Z.leb_le in E; lia|done].
Qed.

(** One [Wait] before the deadline [D] of an unbounded controller: the
    clock moves to the end of the delay or to [D], whichever is first. *)
Lemma Wait_before_deadline (b : Backoff) (w : World) (D : Time) :
  MaxRetries b = 0 →
  ctx_deadline (ctx b) = Some D → ctx_cancelled (ctx b) = None →
  0 <= numRetries b <= 32 → now w < D →
  ∃ b' w',
    Wait b w = Ok (b', w')
    ∧ MaxRetries b' = 0
    ∧ ctx b' = ctx b
    ∧ numRetries b' = numRetries b + 1
    ∧ now w' = Z.min D (now w + (2 ^ (numRetries b + 1) * Second
                                 + (rand_Intn w maxmilli).1 * Millisecond)).
Proof.
  intros Hm Hdl Hcc Hn Hlt.
  assert (Hon : Ongoing b w = true).
  { apply Ongoing_true. split; [by eapply ctx_Err_pending|by left]. }
  unfold Wait. rewrite Hon.
  rewrite NextDelay_Ok by (unfold int_max; lia). cbv zeta.
  pose proof (rand_Intn_range w maxmilli eq_refl) as Hj.
  rewrite delay_no_overflow by (done || lia).
  set (d := 2 ^ (numRetries b + 1) * Second + _).
  assert (Hd : 0 < d).
  { unfold d. pose proof (pow2_le_33 (numRetries b + 1)).
    unfold Second, Millisecond, maxmilli in *. lia. }
  unfold mbind, result_bind, select_Done_After, ctx_doneAt. simpl.
  rewrite Hcc, Hdl.
  rewrite (Z.max_r (now w) D) by lia. rewrite (Z.max_r 0 d) by lia.
  destruct (D <=? now w + d) eqn:E.
  - apply Z.leb_le in E. eexists _, _. split; [reflexivity|].
    rewrite Z.min_l by lia.
    destruct (cancel b) as [cf|]; simpl; [|done].
    repeat split; try done.
    unfold call_cancel. by rewrite (ctx_Err_expired _ D D).
  - apply Z.leb_gt in E. eexists _, _. split; [reflexivity|].
    rewrite Z.min_r by lia. done.
Qed.

Lemma pow2_step (n : Z) : 0 <= n → 2 ^ (n + 1) = 2 * 2 ^ n.
Proof. intros Hn. by rewrite Z.pow_add_r, Z.pow_1_r, Z.mul_comm by lia. Qed.

(** An unbounded controller whose deadline is no further away than the
    next [m] delays add up to stops within [m] waits, at the deadline. *)
Lemma retry_loop_Wait_deadline (m : nat) :
  ∀ (fuel : nat) (iters : Z) (b : Backoff) (w : World) (D : Time),
    MaxRetries b = 0 →
    ctx_deadline (ctx b) = Some D → ctx_cancelled (ctx b) = None →
    0 <= numRetries b → numRetries b + Z.of_nat m <= 33 →
    D - now w
      <= (2 ^ (numRetries b + Z.of_nat m + 1) - 2 ^ (numRetries b + 1)) * Second →
    (m < fuel)%nat →
    ∃ k b' w',
      retry_loop Wait fuel iters b w = Ok (iters + k, b', w')
      ∧ 0 <= k <= Z.of_nat m
      ∧ now w' = Z.max (now w) D
      ∧ Ongoing b' w' = false
      ∧ Err b' w' = Some DeadlineExceeded.
Proof.
  assert (Hstop : ∀ fuel iters b w D,
            ctx_deadline (ctx b) = Some D → ctx_cancelled (ctx b) = None →
            D <= now w →
            retry_loop Wait (S fuel) iters b w = Ok (iters + 0, b, w)
            ∧ now w = Z.max (now w) D
            ∧ Ongoing b w = false
            ∧ Err b w = Some DeadlineExceeded).
  { intros fuel iters b w D Hdl Hcc Hle.
    pose proof (ctx_Err_expired _ _ _ Hdl Hcc Hle) as He.
    assert (Hoff : Ongoing b w = false).
    { unfold Ongoing. by rewrite He. }
    simpl. rewrite Hoff, Z.add_0_r. split; [done|].
    split; [lia|]. split; [done|]. unfold Err. by rewrite He. }
  induction m as [|m IH]; intros fuel iters b w D Hm Hdl Hcc Hn Hm33 Hdist Hfuel.
  - destruct fuel as [|fuel]; [lia|].
    replace (numRetries b + Z.of_nat 0 + 1) with (numRetries b + 1) in Hdist
      by lia.
    destruct (Hstop fuel iters b w D) as (H1 & H2 & H3 & H4); try done; [lia|].
    exists 0, b, w. repeat split; try done; lia.
  - destruct fuel as [|fuel]; [lia|].
    destruct (decide (D <= now w)) as [Hle|Hgt].
    + destruct (Hstop fuel iters b w D) as (H1 & H2 & H3 & H4); try done.
      exists 0, b, w. repeat split; try done; lia.
    + assert (Hon : Ongoing b w = true).
      { apply Ongoing_true.
        split; [eapply ctx_Err_pending; [done|done|lia]|by left]. }
      destruct (Wait_before_deadline b w D)
        as (b1 & w1 & HW & Hm1 & Hctx1 & Hn1 & Hnow1); try done; try lia.
      pose proof (rand_Intn_range w maxmilli eq_refl) as Hj.
      assert (Hp1 : 2 ^ (numRetries b + 1 + 1) = 2 * 2 ^ (numRetries b + 1))
        by (apply pow2_step; lia).
      assert (Hpm : 0 < 2 ^ (numRetries b + 1))
        by (apply Z.pow_pos_nonneg; lia).
      assert (Hpm' : 2 ^ (numRetries b + 1 + 1)
                     <= 2 ^ (numRetries b + 1 + Z.of_nat m + 1))
        by (apply Z.pow_le_mono_r; lia).
      destruct (IH fuel (iters + 1) b1 w1 D)
        as (k & b' & w' & Hloop & Hk & Hnow & Hoff & Herr);
        try (rewrite ?Hctx1; done); try lia.
      { rewrite Hn1, Hnow1.
        replace (numRetries b + Z.of_nat (S m) + 1)
          with (numRetries b + 1 + Z.of_nat m + 1) in Hdist by lia.
        unfold Second, Millisecond, maxmilli in *. lia. }
      exists (k + 1), b', w'. simpl. rewrite Hon, HW.
      unfold mbind, result_bind. rewrite Hloop.
      split; [do 3 f_equal; lia|]. split; [lia|].
      split; [|done]. rewrite Hnow, Hnow1. lia.
Qed.

(** A controller with a non-zero bound stops within that many waits. *)
Lemma retry_loop_Wait_count (fuel : nat) :
  ∀ (iters : Z) (b : Backoff) (w : World),
    MaxRetries b ≠ 0 → MaxRetries b <= int_max → 0 <= numRetries b →
    (Z.to_nat (MaxRetries b - numRetries b) < fuel)%nat →
    ∃ k b' w',
      retry_loop Wait fuel iters b w = Ok (iters + k, b', w')
      ∧ 0 <= k <= Z.max 0 (MaxRetries b - numRetries b)
      ∧ Ongoing b' w' = false.
Proof.
  induction fuel as [|fuel IH]; intros iters b w Hm Hmax Hn Hfuel; [lia|].
  simpl. destruct (Ongoing b w) eqn:Hon.
  - pose proof Hon as Hon'.
    apply Ongoing_true in Hon' as [_ [H0|Hlt]]; [done|].
    destruct (Wait_ongoing b w Hon) as (dl & b1 & w1 & _ & Hnum & Hmax1 & HW);
      [lia|].
    rewrite HW. unfold mbind, result_bind.
    destruct (select_Done_After b1 w1 dl) as [b2 w2] eqn:Hsel.
    assert (Hn2 : numRetries b2 = numRetries b + 1).
    { rewrite <- Hnum, <- (select_Done_After_numRetries b1 w1 dl).
      by rewrite Hsel. }
    assert (Hm2 : MaxRetries b2 = MaxRetries b).
    { rewrite <- Hmax1, <- (select_Done_After_MaxRetries b1 w1 dl).
      by rewrite Hsel. }
    destruct (IH (iters + 1) b2 w2) as (k & b' & w' & Hloop & Hk & Hoff);
      try lia; try congruence.
    exists (k + 1), b', w'. rewrite Hloop.
    split; [do 3 f_equal; lia|]. split; [lia|done].
  - exists 0, b, w. rewrite Z.add_0_r. split; [done|]. split; [lia|done].
Qed.

(** C6: [New] derives a source with the default timeout of 64 seconds, and
    keeps its cancel function, exactly when the caller's source carries no
    deadline and the bound is zero; otherwise it keeps the caller's source
    and owns nothing.  Either way the controller has a non-zero bound or a
    deadline, and the loop [for retry.Ongoing() { retry.Wait() }] returns:
    within the bound when there is one, and within six waits and the
    default timeout when the deadline is the default one. *)
Theorem New_default_deadline (c : Context) (retries : Z) (w : World) :
  let b := New c retries w in
  (Deadline c = None ∧ retries = 0 →
   ctx b = (WithTimeout (now w) c defaultTimeout).1
   ∧ ctx_deadline (ctx b) = Some (now w + 64 * Second)
   ∧ cancel b = Some (WithTimeout (now w) c defaultTimeout).2)
  ∧ (¬ (Deadline c = None ∧ retries = 0) → ctx b = c ∧ cancel b = None)
  ∧ MaxRetries b = retries
  ∧ numRetries b = 0
  ∧ 60 * Second <= defaultTimeout <= 120 * Second
  ∧ (MaxRetries b ≠ 0 ∨ ctx_deadline (ctx b) ≠ None)
  ∧ (retries ≠ 0 → retries <= int_max →
     ∀ fuel, (Z.to_nat retries < fuel)%nat →
       ∃ k b' w',
         retry_loop Wait fuel 0 b w = Ok (k, b', w')
         ∧ 0 <= k <= Z.max 0 retries
         ∧ Ongoing b' w' = false)
  ∧ (Deadline c = None → retries = 0 →
     ∀ fuel, (6 < fuel)%nat →
       ∃ k b' w',
         retry_loop Wait fuel 0 b w = Ok (k, b', w')
         ∧ 0 <= k <= 6
         ∧ now w <= now w' <= now w + defaultTimeout
         ∧ Ongoing b' w' = false
         ∧ Err b' w' ≠ None).
Proof.
  intros b.
  assert (Hmax : MaxRetries b = retries).
  { unfold b, New. destruct (Deadline c); [done|]. by destruct (retries =? 0). }
  assert (Hnum : numRetries b = 0).
  { unfold b, New. destruct (Deadline c); [done|]. by destruct (retries =? 0). }
  assert (Hdef : Deadline c = None → retries = 0 →
            b = {| MaxRetries := 0;
                   ctx := {| ctx_deadline := Some (now w + 64 * Second);
                             ctx_cancelled := ctx_cancelled c |};
                   cancel := Some cancelTimeout;
                   numRetries := 0; nextDelay := 0 |}).
  { intros Hd Hr. unfold b, New, WithTimeout. rewrite Hd, Hr. simpl.
    unfold Deadline in Hd. by rewrite Hd. }
  split; [|split; [|split; [|split; [|split; [|split; [|split]]]]]].
  - intros [Hd Hr]. rewrite (Hdef Hd Hr). simpl.
    unfold Deadline in Hd. by rewrite Hd.
  - intros Hnot. unfold b, New. destruct (Deadline c) eqn:Hd; [done|].
    destruct (retries =? 0) eqn:E; [|done].
    apply Z.eqb_eq in E. destruct Hnot. done.
  - exact Hmax.
  - exact Hnum.
  - unfold defaultTimeout, Second. lia.
  - destruct (decide (retries = 0)) as [->|Hr]; [|left; congruence].
    right. unfold b, New. destruct (Deadline c) eqn:Hd.
    + simpl. unfold Deadline in Hd. by rewrite Hd.
    + simpl. done.
  - intros Hr Hle fuel Hfuel.
    destruct (retry_loop_Wait_count fuel 0 b w)
      as (k & b' & w' & Hloop & Hk & Hoff);
      rewrite ?Hmax, ?Hnum, ?Z.sub_0_r; try done.
    exists k, b', w'. rewrite Hmax, Hnum, Z.sub_0_r in Hk. done.
  - intros Hd Hr fuel Hfuel. rewrite (Hdef Hd Hr).
    set (b0 := mkBackoff _ _ _ _ _).
    destruct (ctx_cancelled c) as [e|] eqn:Hcc.
    + assert (He : ctx_Err (ctx b0) (now w) = Some e) by done.
      assert (Hoff : Ongoing b0 w = false).
      { unfold Ongoing. by rewrite He. }
      exists 0, b0, w. destruct fuel as [|fuel]; [lia|]. simpl retry_loop.
      rewrite Hoff. split; [done|]. split; [lia|].
      split; [unfold defaultTimeout, Second; lia|]. split; [done|].
      unfold Err. by rewrite He.
    + destruct (retry_loop_Wait_deadline 6 fuel 0 b0 w (now w + 64 * Second))
        as (k & b' & w' & Hloop & Hk & Hnow & Hoff & Herr); try done.
      { simpl. unfold Second. lia. }
      exists k, b', w'. split; [done|]. split; [lia|].
      split; [unfold defaultTimeout, Second in *; lia|]. split; [done|].
      by rewrite Herr.
Qed.

(** ** The metrics exporter *)

Lemma Gather_on_pointer (f : Backoff → World → result (Backoff * World))
    (p : nat) (name : string) (σ σ' : Process) (w w' : World) :
  on_pointer f p σ w = Ok (σ', w') → Gather name σ' = Gather name σ.
Proof.
  unfold on_pointer. destruct (heap σ !! p) as [b|]; [|done].
  destruct (f b w) as [[b' w1]| |]; simpl; [|done|done].
  by intros [= <- <-].
Qed.

Lemma Gather_Register_at (p : nat) (name : string) (σ σ' : Process)
    (b : Backoff) :
  heap σ !! p = Some b → DefaultRegisterer σ !! name = None →
  Register_at p name σ = Ok σ' →
  Gather name σ' = Some (Collect b) ∧ heap σ' = heap σ.
Proof.
  unfold Register_at, Gather, Register. intros -> Hfree [= <-]. simpl.
  rewrite Hfree. by rewrite lookup_insert_eq.
Qed.

(** C8, on the code: [Register] takes the controller by value, so the
    collector is the copy made at registration.  With a fresh controller
    bounded by three retries registered as "api", after one [NextDelay] on
    the caller's controller a collection still reports a count of 0 where
    the controller has 1; whatever is called on the controller later, the
    collection stays what it was.  Collecting changes nothing. *)
Theorem Register_exports_a_copy :
  (σ ← Register_at 0 "api" sample_process;
   '(σ', _) ← on_pointer call_NextDelay 0 σ sample_world;
   Ok (map metric_value <$> Gather "api" σ', NumRetries <$> heap σ' !! 0%nat))
  = Ok (Some [3; 0], Some 1)
  ∧ ∀ (f : Backoff → World → result (Backoff * World)) (p : nat) (name : string)
      (σ0 σ σ' : Process) (b : Backoff) (w w' : World),
      heap σ0 !! p = Some b → DefaultRegisterer σ0 !! name = None →
      Register_at p name σ0 = Ok σ →
      on_pointer f p σ w = Ok (σ', w') →
      Gather name σ' = Some (Collect b).
Proof.
  split; [by vm_compute|].
  intros f p name σ0 σ σ' b w w' Hb Hfree Hreg Hcall.
  rewrite (Gather_on_pointer f p name σ σ' w w' Hcall).
  by destruct (Gather_Register_at p name σ0 σ b Hb Hfree Hreg).
Qed.

(** ** The Retry-After header *)

Lemma Time_Sub_exact (t u : Time) :
  minDuration <= t - u <= maxDuration → Time_Sub t u = t - u.
Proof.
  intros H. unfold Time_Sub.
  destruct (t - u <? minDuration) eqn:E1; [apply Z.ltb_lt in E1; lia|].
  destruct (maxDuration <? t - u) eqn:E2; [apply Z.ltb_lt in E2; lia|done].
Qed.

Lemma Header_Get_absent (h : gmap string (list string)) (key : string) :
  h !! key = None → Header_Get h key = "".
Proof. intros H. unfold Header_Get. by rewrite H. Qed.

(** C9, as the code has it: when the header value parses as an RFC 1123
    date the result is that instant minus now, saturated to the range of
    [time.Duration] (and exact within it); otherwise, when [strconv.Atoi]
    reads it as an integer [n], the result is [n] seconds computed in 64
    bits, which is exactly [n] seconds for [n] up to 9223372036 either
    side of zero, so 120 seconds for "120"; for a value that is neither,
    and for an absent header, it is zero. *)
Theorem RetryAfterHTTP_cases (time_Parse : string → option Time)
    (w : World) (rsp : Response) :
  let retry := Header_Get (Header rsp) "Retry-After" in
  (∀ t, time_Parse retry = Some t →
     RetryAfterHTTP time_Parse w rsp = Time_Sub t (now w)
     ∧ (minDuration <= t - now w <= maxDuration →
        RetryAfterHTTP time_Parse w rsp = t - now w))
  ∧ (∀ n, time_Parse retry = None → Atoi retry = Some n →
       RetryAfterHTTP time_Parse w rsp = wrap64 (n * Second)
       ∧ (-9223372036 <= n <= 9223372036 →
          RetryAfterHTTP time_Parse w rsp = n * Second))
  ∧ (time_Parse retry = None → retry = "120" →
     RetryAfterHTTP time_Parse w rsp = 120 * Second)
  ∧ (time_Parse retry = None → Atoi retry = None →
     RetryAfterHTTP time_Parse w rsp = 0)
  ∧ (Header rsp !! "Retry-After" = None → time_Parse "" = None →
     RetryAfterHTTP time_Parse w rsp = 0).
Proof.
  intros retry. unfold RetryAfterHTTP. fold retry.
  split; [|split; [|split; [|split]]].
  - intros t ->. split; [done|]. apply Time_Sub_exact.
  - intros n -> ->. split; [done|]. intros Hn.
    apply wrap64_id. unfold in_int, int_min, int_max, Second. lia.
  - intros -> ->. reflexivity.
  - by intros -> ->.
  - intros Habs Hp. unfold retry.
    rewrite (Header_Get_absent _ _ Habs), Hp. reflexivity.
Qed.

(** C9 as the specification words it does not hold for every integer: the value
    "10000000000" is read as ten thousand million, and that many seconds
    do not fit 64 bits of nanoseconds; the result is negative. *)
Lemma RetryAfterHTTP_integer_overflow :
  sample_Parse "10000000000" = None
  ∧ Atoi "10000000000" = Some 10000000000
  ∧ RetryAfterHTTP sample_Parse sample_world (response_with "10000000000")
    = -8446744073709551616
  ∧ -8446744073709551616 ≠ 10000000000 * Second.
Proof. repeat split; by vm_compute. Qed.

(** ** The package's own tests, replayed on the model *)

(** [TestConfig], "max retries": ten iterations, then the error. *)
Example TestConfig_max_retries :
  loop_report
    (retry_loop call_NextDelay 11 0 (New Background 10 sample_world)
       sample_world)
  = Some (10, Some "terminated after 10 retries", 0).
Proof. by vm_compute. Qed.

(** [TestConfig], "reasonable default": the loop of waits ends at the
    default deadline with the error of the context. *)
Example TestConfig_reasonable_default :
  loop_report
    (retry_loop Wait 7 0 (New Background 0 sample_world) sample_world)
  = Some (5, Some "context deadline exceeded", 64 * Second).
Proof. by vm_compute. Qed.

(** [TestConfig], "max wait": the same under a caller's deadline of ten
    seconds, which [New] keeps. *)
Example TestConfig_max_wait :
  loop_report
    (retry_loop Wait 7 0
       (New (WithTimeout (now sample_world) Background (10 * Second)).1 0
          sample_world)
       sample_world)
  = Some (3, Some "context deadline exceeded", 10 * Second).
Proof. by vm_compute. Qed.

(** * Further properties of the package *)

(** ** errors.go: the classifiers *)

(** X1: a response is worth a retry exactly when its status is 429 or
    lies in 500..599; the integer division by 100 lets no other status,
    negative ones included, through. *)
Theorem ShouldRetryHTTP_iff (rsp : Response) :
  ShouldRetryHTTP rsp = true
  ↔ StatusCode rsp = 429 ∨ 500 <= StatusCode rsp <= 599.
Proof.
  unfold ShouldRetryHTTP. rewrite orb_true_iff, !Z.eqb_eq.
  set (x := StatusCode rsp).
  pose proof (Z.quot_rem' x 100) as Hqr.
  assert (Hr : (0 <= x → 0 <= x `rem` 100 < 100)
               ∧ (x <= 0 → -100 < x `rem` 100 <= 0)).
  { split; intros Hx.
    - apply Z.rem_bound_pos; lia.
    - pose proof (Z.rem_nonpos x 100).
      pose proof (Z.rem_bound_abs x 100). lia. }
  destruct Hr as [Hpos Hneg].
  split; (intros [H|H]; [by left|right]); lia.
Qed.

Lemma errors_As_pq_wrap_all (msgs : list string) (e : goerror) :
  errors_As_pq (wrap_all msgs e) = errors_As_pq e.
Proof. induction msgs as [|m ms IH]; [done|]. simpl. exact IH. Qed.

Lemma errors_As_NetworkError_wrap_all (msgs : list string) (e : goerror) :
  errors_As_NetworkError (wrap_all msgs e) = errors_As_NetworkError e.
Proof. induction msgs as [|m ms IH]; [done|]. simpl. exact IH. Qed.

(** X2: [ShouldRetryPostgreSQL] looks through any depth of wrapping: a
    wrapped error is classified as the error it wraps.  So a wrapped
    [*pq.Error] is retried exactly when its code is one of the nine listed,
    and a wrapped plain error, like nil, never is. *)
Theorem ShouldRetryPostgreSQL_wrapped (msgs : list string) :
  (∀ e, ShouldRetryPostgreSQL (Some (wrap_all msgs e))
        = ShouldRetryPostgreSQL (Some e))
  ∧ (∀ code,
       ShouldRetryPostgreSQL (Some (wrap_all msgs (pqError code))) = true
       ↔ code ∈ ["08000"; "08001"; "08004"; "08006";
                 "25000"; "25P01"; "25P02"; "25P03"; "2D000"])
  ∧ (∀ msg, ShouldRetryPostgreSQL (Some (wrap_all msgs (errorsNew msg)))
            = false)
  ∧ ShouldRetryPostgreSQL None = false.
Proof.
  split; [|split; [|split]].
  - intros e. unfold ShouldRetryPostgreSQL.
    by rewrite errors_As_pq_wrap_all.
  - intros code. unfold ShouldRetryPostgreSQL.
    rewrite errors_As_pq_wrap_all. simpl.
    repeat case_bool_decide;
      rewrite ?elem_of_cons, ?elem_of_nil in *; intuition congruence.
  - intros msg. unfold ShouldRetryPostgreSQL.
    by rewrite errors_As_pq_wrap_all.
  - reflexivity.
Qed.

(** X3: whatever is retried carries, first on its chain, a [*pq.Error]
    of class 08 (connection), 25 (transaction state) or 2D; an error of
    any other class, such as the serialization failures of class 40, is
    not retried. *)
Theorem ShouldRetryPostgreSQL_classes (err : option goerror) :
  ShouldRetryPostgreSQL err = true →
  ∃ e code,
    err = Some e ∧ errors_As_pq e = Some code
    ∧ sqlstate_class code ∈ ["08"; "25"; "2D"].
Proof.
  destruct err as [e|]; [|discriminate]. unfold ShouldRetryPostgreSQL.
  destruct (errors_As_pq e) as [code|] eqn:Has; [|discriminate].
  intros H. exists e, code. split; [done|]. split; [done|].
  repeat case_bool_decide; try discriminate.
  - assert (Hc : code = "08000" ∨ code = "08001" ∨ code = "08004"
                 ∨ code = "08006")
      by (rewrite ?elem_of_cons, ?elem_of_nil in *; tauto).
    destruct Hc as [-> | [-> | [-> | ->]]]; simpl;
      rewrite ?elem_of_cons; tauto.
  - assert (Hc : code = "25000" ∨ code = "25P01" ∨ code = "25P02"
                 ∨ code = "25P03" ∨ code = "2D000")
      by (rewrite ?elem_of_cons, ?elem_of_nil in *; tauto).
    destruct Hc as [-> | [-> | [-> | [-> | ->]]]]; simpl;
      rewrite ?elem_of_cons; tauto.
Qed.

Lemma ShouldRetryPostgreSQL_classes_witness :
  ∃ e code,
    Some (wrapError "query failed" (pqError "08006")) = Some e
    ∧ errors_As_pq e = Some code
    ∧ sqlstate_class code ∈ ["08"; "25"; "2D"].
Proof.
  apply (ShouldRetryPostgreSQL_classes
           (Some (wrapError "query failed" (pqError "08006")))).
  reflexivity.
Defined.

(** ** backoff.go: the state machine *)

Lemma New_fields (c : Context) (retries : Z) (w : World) :
  MaxRetries (New c retries w) = retries
  ∧ numRetries (New c retries w) = 0
  ∧ nextDelay (New c retries w) = 0
  ∧ ctx_cancelled (ctx (New c retries w)) = ctx_cancelled c
  ∧ (ctx (New c retries w) = c
     ∨ ctx_deadline c = None
       ∧ ctx_deadline (ctx (New c retries w)) = Some (now w + defaultTimeout)).
Proof.
  unfold New, Deadline. destruct (ctx_deadline c) eqn:Hd.
  - repeat split; try done. by left.
  - destruct (retries =? 0); simpl; rewrite ?Hd.
    + repeat split; try done. right. done.
    + repeat split; try done. by left.
Qed.

(** X4: a controller just built is ongoing exactly when the caller's
    source is live and the bound is not negative; the default deadline,
    when [New] adds it, lies ahead and changes nothing to that. *)
Theorem New_Ongoing_iff (c : Context) (retries : Z) (w : World) :
  Ongoing (New c retries w) w = true
  ↔ ctx_Err c (now w) = None ∧ 0 <= retries.
Proof.
  rewrite Ongoing_true.
  destruct (New_fields c retries w) as (Hm & Hn & _ & Hcc & Hctx).
  rewrite Hm, Hn.
  assert (Hlive : ctx_Err (ctx (New c retries w)) (now w) = ctx_Err c (now w)).
  { destruct Hctx as [->|[Hd Hd']]; [done|].
    unfold ctx_Err. rewrite Hcc, Hd, Hd'.
    destruct (ctx_cancelled c); [done|].
    destruct (now w + defaultTimeout <=? now w) eqn:E; [|done].
    apply Z.leb_le in E. unfold defaultTimeout, Second in E. lia. }
  rewrite Hlive. split; intros [H1 H2]; (split; [done|]); lia.
Qed.

(** Once the count stands at or past a bound, or the source has failed,
    one more call of any kind leaves the controller terminated and the
    clock where it was. *)
Lemma do_call_terminated (c : call) (b : Backoff) (w : World) :
  Ongoing b w = false → 0 <= numRetries b < int_max →
  ∃ b' w',
    do_call c b w = Ok (b', w')
    ∧ Ongoing b' w' = false
    ∧ now w' = now w
    ∧ ctx b' = ctx b ∧ MaxRetries b' = MaxRetries b
    ∧ numRetries b <= numRetries b' <= numRetries b + 1
    ∧ (c ≠ CallNextDelay → b' = b ∧ w' = w).
Proof.
  intros Hoff Hn.
  assert (Hstay : ∃ b' w', Ok (b, w) = Ok (b', w')
            ∧ Ongoing b' w' = false ∧ now w' = now w
            ∧ ctx b' = ctx b ∧ MaxRetries b' = MaxRetries b
            ∧ numRetries b <= numRetries b' <= numRetries b + 1
            ∧ (c ≠ CallNextDelay → b' = b ∧ w' = w)).
  { exists b, w. repeat split; try done; lia. }
  destruct c as [| | | | |d]; simpl; try done.
  - destruct (call_NextDelay_Ok b w Hn) as [dl Hcall]. rewrite Hcall.
    eexists _, _. split; [done|]. simpl.
    split; [|repeat split; try done; lia].
    apply not_true_is_false. intros Hon.
    apply Ongoing_true in Hon as [Hlive Hcount]. simpl in *.
    assert (Ongoing b w = true); [|congruence].
    apply Ongoing_true. split; [done|]. lia.
  - by rewrite Wait_not_ongoing.
  - by rewrite WaitFor_not_ongoing.
Qed.

(** X5: the terminated state is absorbing.  From a controller that is
    not ongoing, every sequence of calls returns, none of them sleeps, and
    the controller is still not ongoing afterwards, at that instant and at
    any later one; without [NextDelay] in the sequence nothing changes at
    all. *)
Theorem terminated_is_absorbing (cs : list call) :
  ∀ (b : Backoff) (w : World),
    Ongoing b w = false →
    0 <= numRetries b → numRetries b + Z.of_nat (length cs) <= int_max →
    ∃ b' w',
      do_calls cs b w = Ok (b', w')
      ∧ Ongoing b' w' = false
      ∧ now w' = now w
      ∧ (∀ t, now w <= t → Ongoing b' (set_now w' t) = false)
      ∧ (CallNextDelay ∉ cs → b' = b ∧ w' = w).
Proof.
  assert (Hlater : ∀ b w t, Ongoing b w = false → now w <= t →
            Ongoing b (set_now w t) = false).
  { intros b w t Hoff Ht.
    destruct (Ongoing b (set_now w t)) eqn:Hon; [|done].
    apply Ongoing_true in Hon as [Hlive Hcount]. simpl in Hlive.
    assert (Ongoing b w = true); [|congruence].
    apply Ongoing_true. split; [|done].
    unfold ctx_Err in *. destruct (ctx_cancelled (ctx b)); [done|].
    destruct (ctx_deadline (ctx b)) as [D|]; [|done].
    destruct (D <=? t) eqn:E; [done|]. apply Z.leb_gt in E.
    destruct (D <=? now w) eqn:E'; [apply Z.leb_le in E'; lia|done]. }
  induction cs as [|c cs IH]; intros b w Hoff Hn Hlen.
  - exists b, w. split; [done|]. split; [done|]. split; [done|].
    split; [|done]. intros t Ht. by apply Hlater.
  - simpl in Hlen.
    destruct (do_call_terminated c b w Hoff)
      as (b1 & w1 & Hcall & Hoff1 & Hnow1 & _ & _ & Hn1 & Hsame); [lia|].
    destruct (IH b1 w1 Hoff1) as (b' & w' & Hcalls & Hoff' & Hnow' & Hl & Hs);
      [lia | lia |].
    exists b', w'. simpl. rewrite Hcall. unfold mbind, result_bind.
    split; [done|]. split; [done|]. split; [lia|]. split.
    + intros t Ht. apply Hl. lia.
    + intros Hnot. apply not_elem_of_cons in Hnot as [Hc Hcs].
      destruct (Hsame (not_eq_sym Hc)) as [-> ->]. by apply Hs.
Qed.

Lemma terminated_is_absorbing_witness :
  ∃ b' w',
    do_calls [CallWait; CallNextDelay; CallWaitFor (3 * Second); CallErr]
      (New Background (-1) sample_world) sample_world = Ok (b', w')
    ∧ Ongoing b' w' = false
    ∧ now w' = now sample_world
    ∧ (∀ t, now sample_world <= t → Ongoing b' (set_now w' t) = false)
    ∧ (CallNextDelay ∉ [CallWait; CallNextDelay; CallWaitFor (3 * Second);
                         CallErr]
       → b' = New Background (-1) sample_world ∧ w' = sample_world).
Proof.
  apply (terminated_is_absorbing
           [CallWait; CallNextDelay; CallWaitFor (3 * Second); CallErr]
           (New Background (-1) sample_world) sample_world);
    [reflexivity | simpl; lia | simpl; unfold int_max; lia].
Defined.

(** ** backoff.go: what a wait does to the clock *)

Lemma rand_Intn_range_now (w : World) : now (rand_Intn w maxmilli).2 = now w.
Proof. reflexivity. Qed.

(** The [select] on a live source: only the clock moves, not backwards,
    by no more than the timer, and not past the deadline. *)
Lemma select_Done_After_live (b : Backoff) (w : World) (d : Duration) :
  ctx_Err (ctx b) (now w) = None →
  (select_Done_After b w d).1 = b
  ∧ rand_src (select_Done_After b w d).2 = rand_src w
  ∧ rand_pos (select_Done_After b w d).2 = rand_pos w
  ∧ now w <= now (select_Done_After b w d).2 <= now w + Z.max 0 d
  ∧ (∀ D, ctx_deadline (ctx b) = Some D →
       now (select_Done_After b w d).2 = Z.min D (now w + Z.max 0 d))
  ∧ (ctx_deadline (ctx b) = None →
       now (select_Done_After b w d).2 = now w + Z.max 0 d).
Proof.
  intros Hlive. unfold ctx_Err in Hlive.
  unfold select_Done_After, ctx_doneAt.
  destruct (ctx_cancelled (ctx b)) eqn:Hcc; [done|].
  destruct (ctx_deadline (ctx b)) as [D|] eqn:Hdl.
  - destruct (D <=? now w) eqn:E; [done|]. apply Z.leb_gt in E.
    rewrite (Z.max_r (now w) D) by lia.
    destruct (D <=? now w + Z.max 0 d) eqn:E'.
    + apply Z.leb_le in E'. simpl.
      assert (Hb : match cancel b with
                   | Some cf =>
                       {| MaxRetries := MaxRetries b;
                          ctx := call_cancel cf (ctx b) D;
                          cancel := cancel b; numRetries := numRetries b;
                          nextDelay := nextDelay b |}
                   | None => b
                   end = b).
      { destruct (cancel b) as [cf|] eqn:Hcf; [|done].
        unfold call_cancel.
        rewrite (ctx_Err_expired (ctx b) D D) by (done || lia).
        destruct b; simpl in *. by rewrite Hcf. }
      rewrite Hb. repeat split; try done; try lia.
      intros D' [= <-]. lia.
    + apply Z.leb_gt in E'. simpl. repeat split; try done; try lia.
      intros D' [= <-]. lia.
  - simpl. repeat split; try done; lia.
Qed.

(** X6: a call of [Wait], or of [WaitFor] with any duration, returns
    with the source, the owned cancel function and the bound as they were;
    the clock has not gone back, and when the source has a deadline the
    call has not slept past it. *)
Theorem WaitFor_respects_deadline (d : Duration) (b : Backoff) (w : World) :
  0 <= numRetries b < int_max →
  ∃ b' w',
    WaitFor d b w = Ok (b', w')
    ∧ ctx b' = ctx b ∧ cancel b' = cancel b ∧ MaxRetries b' = MaxRetries b
    ∧ now w <= now w'
    ∧ (∀ D, ctx_deadline (ctx b) = Some D → now w' <= Z.max (now w) D).
Proof.
  intros Hn.
  assert (Hsel : ∀ b1 w1 d1,
            ctx b1 = ctx b → cancel b1 = cancel b →
            MaxRetries b1 = MaxRetries b → now w1 = now w →
            ctx_Err (ctx b) (now w) = None →
            ∃ b' w',
              Ok (select_Done_After b1 w1 d1) = Ok (b', w')
              ∧ ctx b' = ctx b ∧ cancel b' = cancel b
              ∧ MaxRetries b' = MaxRetries b ∧ now w <= now w'
              ∧ (∀ D, ctx_deadline (ctx b) = Some D →
                   now w' <= Z.max (now w) D)).
  { intros b1 w1 d1 Hc Hcf Hm Hnow Hlive.
    destruct (select_Done_After_live b1 w1 d1)
      as (Hb & _ & _ & Hclock & Hdl & _); [by rewrite Hc, Hnow|].
    exists (select_Done_After b1 w1 d1).1, (select_Done_After b1 w1 d1).2.
    split; [by rewrite <- surjective_pairing|]. rewrite Hb.
    repeat split; try done; try lia.
    intros D HD. rewrite (Hdl D) by (by rewrite Hc). lia. }
  destruct (Ongoing b w) eqn:Hon.
  - pose proof Hon as Hon'. apply Ongoing_true in Hon' as [Hlive _].
    unfold WaitFor. destruct (d =? 0).
    + unfold Wait. rewrite Hon, NextDelay_Ok by done. cbv zeta.
      unfold mbind, result_bind. by apply Hsel.
    + rewrite Hon. destruct (rand_Intn w maxmilli) as [j wj] eqn:Hj.
      apply Hsel; try done. by rewrite <- (rand_Intn_range_now w), Hj.
  - rewrite WaitFor_not_ongoing by done. exists b, w.
    repeat split; try done; lia.
Qed.

Lemma WaitFor_respects_deadline_witness :
  ∃ b' w',
    WaitFor (5 * Second)
      (New (WithTimeout 0 Background (3 * Second)).1 10 sample_world)
      sample_world = Ok (b', w')
    ∧ ctx b' = ctx (New (WithTimeout 0 Background (3 * Second)).1 10
                      sample_world)
    ∧ cancel b' = cancel (New (WithTimeout 0 Background (3 * Second)).1 10
                            sample_world)
    ∧ MaxRetries b' = MaxRetries (New (WithTimeout 0 Background (3 * Second)).1
                                    10 sample_world)
    ∧ now sample_world <= now w'
    ∧ (∀ D, ctx_deadline (ctx (New (WithTimeout 0 Background (3 * Second)).1
                                 10 sample_world)) = Some D →
         now w' <= Z.max (now sample_world) D).
Proof.
  apply (WaitFor_respects_deadline (5 * Second)
           (New (WithTimeout 0 Background (3 * Second)).1 10 sample_world)
           sample_world).
  simpl. unfold int_max. lia.
Defined.




(** ** backoff.go: the law of the delays *)

(** X8: while the count stays below 33, two [NextDelay] in a row return
    delays whose bases (the delays without their jitter) double, and the
    second delay is the longer one whatever the two jitters are. *)
Theorem NextDelay_grows (b : Backoff) (w : World) :
  0 <= numRetries b <= 31 →
  ∃ d1 b1 w1 d2 b2 w2,
    NextDelay b w = Ok (d1, b1, w1)
    ∧ NextDelay b1 w1 = Ok (d2, b2, w2)
    ∧ d2 - (rand_Intn w1 maxmilli).1 * Millisecond
      = 2 * (d1 - (rand_Intn w maxmilli).1 * Millisecond)
    ∧ 2 * Second <= d1 < d2
    ∧ nextDelay b2 = d2 ∧ numRetries b2 = numRetries b + 2.
Proof.
  intros Hn.
  pose proof (rand_Intn_range w maxmilli eq_refl) as Hj1.
  pose proof (rand_Intn_range (rand_Intn w maxmilli).2 maxmilli eq_refl) as Hj2.
  rewrite NextDelay_Ok by (unfold int_max; lia). cbv zeta.
  rewrite delay_no_overflow by (done || lia).
  eexists _, _, _, _, _, _. split; [reflexivity|].
  rewrite NextDelay_Ok by (simpl; unfold int_max; lia). cbv zeta.
  cbn [numRetries].
  rewrite delay_no_overflow by (exact Hj2 || lia).
  split; [reflexivity|].
  rewrite (pow2_step (numRetries b + 1)) by lia.
  assert (Hp : 2 ^ 1 <= 2 ^ (numRetries b + 1))
    by (apply Z.pow_le_mono_r; lia).
  simpl in *. unfold Second, Millisecond, maxmilli in *.
  split; [lia|]. split; [lia|]. split; [done|]. lia.
Qed.

Lemma NextDelay_grows_witness :
  ∃ d1 b1 w1 d2 b2 w2,
    NextDelay (New Background 10 sample_world) sample_world = Ok (d1, b1, w1)
    ∧ NextDelay b1 w1 = Ok (d2, b2, w2)
    ∧ d2 - (rand_Intn w1 maxmilli).1 * Millisecond
      = 2 * (d1 - (rand_Intn sample_world maxmilli).1 * Millisecond)
    ∧ 2 * Second <= d1 < d2
    ∧ nextDelay b2 = d2
    ∧ numRetries b2 = numRetries (New Background 10 sample_world) + 2.
Proof.
  apply (NextDelay_grows (New Background 10 sample_world) sample_world).
  simpl. lia.
Defined.

Lemma wrap64_pow2_ge_64 (n : Z) : 64 <= n → wrap64 (2 ^ n) = 0.
Proof.
  intros Hn. unfold wrap64.
  replace n with (n - 64 + 64) by lia.
  rewrite Z.pow_add_r by lia.
  rewrite Z.add_comm, Z_mod_plus_full. reflexivity.
Qed.

(** X9: the doubling does not last.  From a count of 63 on, the shift
    pushes the one bit out of the 64, and [NextDelay] returns the jitter
    alone: a delay under one second. *)
Theorem NextDelay_collapses (b : Backoff) (w : World) :
  63 <= numRetries b < int_max →
  ∃ b' w',
    NextDelay b w = Ok ((rand_Intn w maxmilli).1 * Millisecond, b', w')
    ∧ 0 <= (rand_Intn w maxmilli).1 * Millisecond < Second
    ∧ numRetries b' = numRetries b + 1.
Proof.
  intros Hn. pose proof (rand_Intn_range w maxmilli eq_refl) as Hj.
  rewrite NextDelay_Ok by lia. cbv zeta.
  rewrite wrap64_pow2_ge_64 by lia.
  change (wrap64 (0 * Second)) with 0. rewrite Z.add_0_l.
  rewrite wrap64_id by apply jitter_in_int.
  eexists _, _. split; [reflexivity|]. simpl in *.
  unfold Second, Millisecond, maxmilli in *. lia.
Qed.

Lemma NextDelay_collapses_witness :
  ∃ b' w',
    NextDelay (mkBackoff 0 Background None 63 0) sample_world
    = Ok ((rand_Intn sample_world maxmilli).1 * Millisecond, b', w')
    ∧ 0 <= (rand_Intn sample_world maxmilli).1 * Millisecond < Second
    ∧ numRetries b' = numRetries (mkBackoff 0 Background None 63 0) + 1.
Proof.
  apply (NextDelay_collapses (mkBackoff 0 Background None 63 0) sample_world).
  simpl. unfold int_max. lia.
Defined.

(** ** backoff.go: how long the loops take *)

(** One [Wait] of an ongoing controller whose source has no deadline. *)
Lemma Wait_no_deadline (b : Backoff) (w : World) :
  Ongoing b w = true → ctx_deadline (ctx b) = None →
  0 <= numRetries b <= 32 →
  ∃ b' w',
    Wait b w = Ok (b', w')
    ∧ MaxRetries b' = MaxRetries b ∧ ctx b' = ctx b
    ∧ numRetries b' = numRetries b + 1
    ∧ now w' = now w + 2 ^ (numRetries b + 1) * Second
               + (rand_Intn w maxmilli).1 * Millisecond.
Proof.
  intros Hon Hdl Hn.
  pose proof Hon as Hon'. apply Ongoing_true in Hon' as [Hlive _].
  pose proof (rand_Intn_range w maxmilli eq_refl) as Hj.
  unfold Wait. rewrite Hon, NextDelay_Ok by (unfold int_max; lia).
  cbv zeta. rewrite delay_no_overflow by (done || lia).
  unfold mbind, result_bind.
  set (d := 2 ^ (numRetries b + 1) * Second + _).
  set (b1 := mkBackoff _ _ _ _ _).
  destruct (select_Done_After_live b1 (rand_Intn w maxmilli).2 d)
    as (Hb & _ & _ & _ & _ & Hnow); [done|].
  exists (select_Done_After b1 (rand_Intn w maxmilli).2 d).1,
         (select_Done_After b1 (rand_Intn w maxmilli).2 d).2.
  split; [by rewrite <- surjective_pairing|]. rewrite Hb.
  repeat split; try done. rewrite (Hnow Hdl).
  assert (0 < 2 ^ (numRetries b + 1)) by (apply Z.pow_pos_nonneg; lia).
  unfold d. clear Hb Hnow. simpl in *.
  unfold Second, Millisecond, maxmilli in *. lia.
Qed.

Lemma retry_loop_Wait_elapsed (fuel : nat) :
  ∀ (iters : Z) (b : Backoff) (w : World),
    ctx_deadline (ctx b) = None → ctx_cancelled (ctx b) = None →
    0 <= numRetries b <= MaxRetries b → 0 < MaxRetries b <= 33 →
    (Z.to_nat (MaxRetries b - numRetries b) < fuel)%nat →
    ∃ b' w',
      retry_loop Wait fuel iters b w
      = Ok (iters + (MaxRetries b - numRetries b), b', w')
      ∧ numRetries b' = MaxRetries b
      ∧ MaxRetries b' = MaxRetries b
      ∧ ctx b' = ctx b
      ∧ (2 ^ (MaxRetries b + 1) - 2 ^ (numRetries b + 1)) * Second
        <= now w' - now w
        <= (2 ^ (MaxRetries b + 1) - 2 ^ (numRetries b + 1)) * Second
           + (MaxRetries b - numRetries b) * (999 * Millisecond).
Proof.
  induction fuel as [|fuel IH]; intros iters b w Hdl Hcc Hn Hm Hfuel; [lia|].
  simpl.
  assert (Hlive : ∀ t, ctx_Err (ctx b) t = None)
    by (intros t; unfold ctx_Err; by rewrite Hcc, Hdl).
  destruct (Ongoing b w) eqn:Hon.
  - pose proof Hon as Hon'.
    apply Ongoing_true in Hon' as [_ [H0|Hlt]]; [lia|].
    destruct (Wait_no_deadline b w Hon Hdl)
      as (b1 & w1 & HW & Hm1 & Hc1 & Hn1 & Hnow1); [lia|].
    rewrite HW. unfold mbind, result_bind.
    destruct (IH (iters + 1) b1 w1)
      as (b' & w' & Hloop & Hnum & Hmax & Hctx & Hel);
      rewrite ?Hc1, ?Hm1, ?Hn1; try done; try lia.
    exists b', w'. rewrite Hloop, Hm1, Hn1 in *.
    pose proof (rand_Intn_range w maxmilli eq_refl) as Hj.
    rewrite (pow2_step (numRetries b + 1)) in Hel by lia.
    split; [do 3 f_equal; lia|].
    split; [done|]. split; [done|]. split; [congruence|].
    unfold Second, Millisecond, maxmilli in *. lia.
  - exists b, w.
    assert (numRetries b = MaxRetries b) as Heq.
    { destruct (decide (numRetries b < MaxRetries b)) as [Hlt|]; [|lia].
      assert (Ongoing b w = true) by (apply Ongoing_true; auto).
      congruence. }
    rewrite Heq, !Z.sub_diag, Z.add_0_r. done.
Qed.

(** X10: what a bound costs in time.  With a bound [N] of at most 33
    and a source that never expires, the loop
    [for retry.Ongoing() { retry.Wait() }] makes [N] waits and takes
    [2^(N+1) - 2] seconds plus the jitters, under a second each; then [Err]
    is the error of the exhausted bound. *)
Theorem Wait_loop_duration (N : Z) (c : Context) (w : World) (fuel : nat) :
  0 < N <= 33 → ctx_deadline c = None → ctx_cancelled c = None →
  (Z.to_nat N < fuel)%nat →
  ∃ b' w',
    retry_loop Wait fuel 0 (New c N w) w = Ok (N, b', w')
    ∧ NumRetries b' = N
    ∧ Err b' w' = Some (Errorf_terminated N)
    ∧ (2 ^ (N + 1) - 2) * Second
      <= now w' - now w
      <= (2 ^ (N + 1) - 2) * Second + N * (999 * Millisecond).
Proof.
  intros HN Hdl Hcc Hfuel.
  destruct (New_fields c N w) as (Hm & Hn & _ & Hcc' & Hctx).
  assert (Hc : ctx (New c N w) = c).
  { unfold New, Deadline. rewrite Hdl.
    destruct (N =? 0) eqn:E; [apply Z.eqb_eq in E; lia|done]. }
  destruct (retry_loop_Wait_elapsed fuel 0 (New c N w) w)
    as (b' & w' & Hloop & Hnum & Hmax & Hctx' & Hel);
    rewrite ?Hc, ?Hm, ?Hn, ?Z.sub_0_r; try done; try lia.
  rewrite Hm, Hn, Z.sub_0_r, Z.add_0_l in *.
  exists b', w'. split; [done|]. split; [done|]. split; [|exact Hel].
  destruct (exhausted b' w') as [_ Herr]; rewrite ?Hmax, ?Hnum; try lia.
  { unfold ctx_Err. by rewrite Hctx', Hc, Hcc, Hdl. }
  by rewrite Hnum in Herr.
Qed.

Lemma Wait_loop_duration_witness :
  ∃ b' w',
    retry_loop Wait 4 0 (New Background 3 sample_world) sample_world
    = Ok (3, b', w')
    ∧ NumRetries b' = 3
    ∧ Err b' w' = Some (Errorf_terminated 3)
    ∧ (2 ^ (3 + 1) - 2) * Second
      <= now w' - now sample_world
      <= (2 ^ (3 + 1) - 2) * Second + 3 * (999 * Millisecond).
Proof.
  apply (Wait_loop_duration 3 Background sample_world 4);
    [lia | reflexivity | reflexivity | simpl; lia].
Defined.

(** X11: a caller's deadline ends the loop of an unbounded controller.
    With no bound and a source whose deadline [D] is at most [2^34 - 2]
    seconds away, the loop of waits returns within 33 waits with the clock
    at [D] (or where it was, if [D] had passed), no later, and [Err] is the
    deadline error of the source. *)
Theorem deadline_bounded_termination
    (c : Context) (D : Time) (w : World) (fuel : nat) :
  ctx_deadline c = Some D → ctx_cancelled c = None →
  D - now w <= (2 ^ 34 - 2) * Second → (33 < fuel)%nat →
  ∃ k b' w',
    retry_loop Wait fuel 0 (New c 0 w) w = Ok (k, b', w')
    ∧ 0 <= k <= 33
    ∧ now w' = Z.max (now w) D
    ∧ Ongoing b' w' = false
    ∧ Err b' w' = Some DeadlineExceeded.
Proof.
  intros Hdl Hcc Hdist Hfuel.
  assert (Hnew : New c 0 w =
            {| MaxRetries := 0; ctx := c; cancel := None;
               numRetries := 0; nextDelay := 0 |}).
  { unfold New, Deadline. by rewrite Hdl. }
  rewrite Hnew.
  destruct (retry_loop_Wait_deadline 33 fuel 0 (mkBackoff 0 c None 0 0) w D)
    as (k & b' & w' & Hloop & Hk & Hnow & Hoff & Herr); try done.
  exists k, b', w'. repeat split; try done; lia.
Qed.

Lemma deadline_bounded_termination_witness :
  ∃ k b' w',
    retry_loop Wait 34 0
      (New (WithTimeout 0 Background (10 * Second)).1 0 sample_world)
      sample_world = Ok (k, b', w')
    ∧ 0 <= k <= 33
    ∧ now w' = Z.max (now sample_world) (10 * Second)
    ∧ Ongoing b' w' = false
    ∧ Err b' w' = Some DeadlineExceeded.
Proof.
  apply (deadline_bounded_termination
           (WithTimeout 0 Background (10 * Second)).1 (10 * Second)
           sample_world 34);
    [reflexivity | reflexivity | simpl; unfold Second; lia | lia].
Defined.

(** ** errors.go: the Retry-After header, and the wait it feeds *)

Lemma digit_of_pretty_N_char (k : N) :
  (k < 10)%N → digit_of (pretty_N_char k) = Some (Z.of_N k).
Proof.
  intros Hk.
  assert (Hc : k ∈ [0; 1; 2; 3; 4; 5; 6; 7; 8; 9]%N).
  { rewrite !elem_of_cons. lia. }
  rewrite !elem_of_cons, elem_of_nil in Hc.
  destruct Hc as [-> | [-> | [-> | [-> | [-> | [-> | [-> | [-> | [-> | [-> | []]]]]]]]]]];
    reflexivity.
Qed.

(** Reading back the digits that [pretty] wrote in front of [s]. *)
Lemma digits_value_pretty_N_go (x : N) :
  ∀ s, digits_value (pretty_N_go x s) 0 = digits_value s (Z.of_N x).
Proof.
  induction (N.lt_wf_0 x) as [x _ IH]. intros s.
  destruct (decide (x = 0)%N) as [->|Hx]; [by rewrite pretty_N_go_0|].
  rewrite pretty_N_go_step by lia.
  rewrite IH by (apply N.div_lt; lia). simpl.
  rewrite digit_of_pretty_N_char by (apply N.mod_lt; lia).
  f_equal. pose proof (N.div_mod x 10). lia.
Qed.

Lemma pretty_N_go_head (x : N) :
  ∀ s, (0 < x)%N →
    ∃ k r, (k < 10)%N ∧ pretty_N_go x s = String (pretty_N_char k) r.
Proof.
  induction (N.lt_wf_0 x) as [x _ IH]. intros s Hx.
  rewrite pretty_N_go_step by done.
  destruct (decide (x `div` 10 = 0)%N) as [Hq|Hq].
  - rewrite Hq, pretty_N_go_0. eexists _, _. split; [|done].
    apply N.mod_lt. lia.
  - apply IH; [apply N.div_lt; lia | by apply N.neq_0_lt_0].
Qed.

Lemma Atoi_unsigned (k : N) (r : string) :
  (k < 10)%N →
  Atoi (String (pretty_N_char k) r)
  = match digits_value (String (pretty_N_char k) r) 0 with
    | Some n => if (int_min <=? n) && (n <=? int_max) then Some n else None
    | None => None
    end.
Proof.
  intros Hk.
  assert (Hc : k ∈ [0; 1; 2; 3; 4; 5; 6; 7; 8; 9]%N).
  { rewrite !elem_of_cons. lia. }
  rewrite !elem_of_cons, elem_of_nil in Hc.
  destruct Hc as [-> | [-> | [-> | [-> | [-> | [-> | [-> | [-> | [-> | [-> | []]]]]]]]]]];
    reflexivity.
Qed.

(** [strconv.Atoi] reads back what the decimal printer wrote. *)
Lemma Atoi_pretty (n : Z) : in_int n → Atoi (pretty n) = Some n.
Proof.
  unfold in_int. intros Hn. destruct n as [|p|p].
  - reflexivity.
  - change (pretty (Z.pos p)) with (pretty_N_go (N.pos p) "").
    destruct (pretty_N_go_head (N.pos p) "") as (k & r & Hk & Hs); [lia|].
    rewrite Hs, Atoi_unsigned by done. rewrite <- Hs.
    rewrite digits_value_pretty_N_go. simpl.
    destruct (int_min <=? Z.pos p) eqn:E1; [|apply Z.leb_gt in E1; lia].
    destruct (Z.pos p <=? int_max) eqn:E2; [|apply Z.leb_gt in E2; lia].
    done.
  - change (pretty (Z.neg p)) with (String "-" (pretty_N_go (N.pos p) "")).
    destruct (pretty_N_go_head (N.pos p) "") as (k & r & Hk & Hs); [lia|].
    unfold Atoi. rewrite Hs, <- Hs.
    rewrite digits_value_pretty_N_go. simpl.
    change (Z.neg p) with (- Z.pos p) in *.
    destruct (int_min <=? - Z.pos p) eqn:E1; [|apply Z.leb_gt in E1; lia].
    destruct (- Z.pos p <=? int_max) eqn:E2; [|apply Z.leb_gt in E2; lia].
    done.
Qed.

(** X12: a delay given in seconds is read back exactly.  When the first
    Retry-After value of a response is the decimal writing of an integer
    [n] of at most 9223372036 either side of zero, and not a date, the
    result is [n] seconds. *)
Theorem RetryAfterHTTP_decimal (time_Parse : string → option Time)
    (w : World) (rsp : Response) (n : Z) (others : list string) :
  -9223372036 <= n <= 9223372036 →
  Header rsp !! "Retry-After" = Some (pretty n :: others) →
  time_Parse (pretty n) = None →
  RetryAfterHTTP time_Parse w rsp = n * Second.
Proof.
  intros Hn Hh Hp. unfold RetryAfterHTTP, Header_Get. rewrite Hh, Hp.
  rewrite Atoi_pretty by (unfold in_int, int_min, int_max; lia).
  apply wrap64_id. unfold in_int, int_min, int_max, Second. lia.
Qed.

Lemma RetryAfterHTTP_decimal_witness :
  RetryAfterHTTP sample_Parse sample_world (response_with "3600")
  = 3600 * Second.
Proof.
  apply (RetryAfterHTTP_decimal sample_Parse sample_world
           (response_with "3600") 3600 []);
    [lia | reflexivity | reflexivity].
Defined.



(** ** example_test.go: the loop a caller writes *)

(** X14: [shouldretry] follows the flag of the [NetworkError] it finds
    through any depth of wrapping, and says no to nil and to a chain
    without one, a [*pq.Error] included.  Conversely a [NetworkError] has
    no [Unwrap], so [ShouldRetryPostgreSQL] does not see the error it
    carries as [Underlying], retryable or not. *)
Theorem shouldretry_wrapped (msgs : list string) :
  (∀ r u, shouldretry (Some (wrap_all msgs (NetworkError r u))) = r)
  ∧ (∀ e, errors_As_NetworkError e = None →
       shouldretry (Some (wrap_all msgs e)) = false)
  ∧ (∀ code, shouldretry (Some (wrap_all msgs (pqError code))) = false)
  ∧ shouldretry None = false
  ∧ (∀ r u, ShouldRetryPostgreSQL (Some (wrap_all msgs (NetworkError r u)))
            = false).
Proof.
  unfold shouldretry, ShouldRetryPostgreSQL.
  split; [|split; [|split; [|split]]].
  - intros r u. by rewrite errors_As_NetworkError_wrap_all.
  - intros e He. by rewrite errors_As_NetworkError_wrap_all, He.
  - intros code. by rewrite errors_As_NetworkError_wrap_all.
  - reflexivity.
  - intros r u. by rewrite errors_As_pq_wrap_all.
Qed.

(** One [Wait] of an ongoing controller, with or without a deadline. *)
Lemma Wait_live (b : Backoff) (w : World) :
  Ongoing b w = true → 0 <= numRetries b <= 32 →
  ∃ b' w',
    Wait b w = Ok (b', w')
    ∧ MaxRetries b' = MaxRetries b ∧ ctx b' = ctx b
    ∧ numRetries b' = numRetries b + 1
    ∧ now w <= now w'
    ∧ ∀ D, ctx_deadline (ctx b) = Some D →
        now w' = Z.min D (now w + (2 ^ (numRetries b + 1) * Second
                                   + (rand_Intn w maxmilli).1 * Millisecond)).
Proof.
  intros Hon Hn.
  pose proof Hon as Hon'. apply Ongoing_true in Hon' as [Hlive _].
  pose proof (rand_Intn_range w maxmilli eq_refl) as Hj.
  unfold Wait. rewrite Hon, NextDelay_Ok by (unfold int_max; lia).
  cbv zeta. rewrite delay_no_overflow by (done || lia).
  unfold mbind, result_bind.
  set (d := 2 ^ (numRetries b + 1) * Second + _).
  assert (Hd : 0 < d).
  { unfold d. pose proof (pow2_le_33 (numRetries b + 1)).
    unfold Second, Millisecond, maxmilli in *. lia. }
  set (b1 := mkBackoff _ _ _ _ _).
  destruct (select_Done_After_live b1 (rand_Intn w maxmilli).2 d)
    as (Hb & _ & _ & Hclock & Hdl & _); [done|].
  destruct (select_Done_After b1 (rand_Intn w maxmilli).2 d) as [b2 w2].
  simpl in Hb, Hclock, Hdl. subst b2. exists b1, w2.
  repeat split; try done; try lia.
  intros D HD. rewrite (Hdl D HD). by rewrite Z.max_r by lia.
Qed.

Lemma Example_inv_step (D : Time) (k : nat) (b : Backoff) (w : World) :
  (k <= 4)%nat → Example_inv D k b w →
  Ongoing b w = true
  ∧ now w < D
  ∧ ∃ b' w', Wait b w = Ok (b', w') ∧ Example_inv D (S k) b' w'
             ∧ now w <= now w'.
Proof.
  intros Hk (Hm & Hdl & Hcc & Hn & Hearly & _). specialize (Hearly Hk).
  assert (Hcases : k ∈ [0; 1; 2; 3; 4]%nat).
  { rewrite !elem_of_cons. lia. }
  assert (Hlt : now w < D).
  { rewrite !elem_of_cons, elem_of_nil in Hcases.
    destruct Hcases as [-> | [-> | [-> | [-> | [-> | []]]]]];
      simpl in Hearly; unfold Minute, Second, Millisecond in *; lia. }
  assert (Hon : Ongoing b w = true).
  { apply Ongoing_true. split; [by eapply ctx_Err_pending|]. right. lia. }
  split; [done|]. split; [done|].
  destruct (Wait_live b w Hon) as (b' & w' & HW & Hm' & Hc' & Hn' & Hmono & Hnow);
    [lia|].
  exists b', w'. split; [done|]. split; [|done].
  specialize (Hnow D Hdl).
  pose proof (rand_Intn_range w maxmilli eq_refl) as Hj.
  unfold Example_inv. rewrite Hm', Hc', Hn', Hn.
  split; [done|]. split; [done|]. split; [done|]. split; [lia|].
  rewrite Hn in Hnow. clear HW Hon.
  rewrite !elem_of_cons, elem_of_nil in Hcases.
  destruct Hcases as [-> | [-> | [-> | [-> | [-> | []]]]]];
    simpl in *; unfold Minute, Second, Millisecond, maxmilli in *;
    (split; intros; lia).
Qed.

(** The loop of [Example] from attempt [k] on. *)
Lemma Example_loop_from (doremotecall : nat → option goerror) (D : Time)
    (m : nat) :
  ∀ (fuel k : nat) (b : Backoff) (w : World),
    (k + m = 5)%nat → Example_inv D k b w → (m < fuel)%nat →
    (∀ j, (k <= j < 5)%nat →
       (∀ i, (k <= i < j)%nat → shouldretry (doremotecall i) = true) →
       shouldretry (doremotecall j) = false →
       ∃ b' w',
         Example_loop doremotecall fuel k b w = Ok (false, S j, b', w')
         ∧ now w <= now w' < D)
    ∧ ((∀ i, (k <= i < 5)%nat → shouldretry (doremotecall i) = true) →
       ∃ b' w',
         Example_loop doremotecall fuel k b w = Ok (true, 5%nat, b', w')
         ∧ now w' = D
         ∧ Err b' w' = Some DeadlineExceeded).
Proof.
  induction m as [|m IH]; intros fuel k b w Hkm Hinv Hfuel;
    (destruct fuel as [|fuel]; [lia|]).
  - assert (k = 5%nat) as -> by lia.
    destruct Hinv as (Hm & Hdl & Hcc & Hn & _ & Hnow).
    specialize (Hnow eq_refl).
    assert (He : ctx_Err (ctx b) (now w) = Some DeadlineExceeded)
      by (eapply ctx_Err_expired; [done|done|lia]).
    assert (Hoff : Ongoing b w = false) by (unfold Ongoing; by rewrite He).
    split; [intros j Hj; lia|]. intros _. exists b, w.
    simpl. rewrite Hoff. split; [done|]. split; [done|].
    unfold Err. by rewrite He.
  - destruct (Example_inv_step D k b w) as (Hon & Hlt & b1 & w1 & HW & Hinv1 & Hmono);
      [lia | done |].
    destruct (IH fuel (S k) b1 w1) as [IH1 IH2]; [lia | done | lia |].
    simpl. rewrite Hon.
    destruct (shouldretry (doremotecall k)) eqn:Hr; simpl.
    + rewrite HW. unfold mbind, result_bind. split.
      * intros j Hj Hbefore Hstop.
        destruct (decide (j = k)) as [->|Hne]; [congruence|].
        destruct (IH1 j) as (b' & w' & Hloop & Hclock); [lia| |done|].
        { intros i Hi. apply Hbefore. lia. }
        exists b', w'. split; [done|]. lia.
      * intros Hall. apply IH2. intros i Hi. apply Hall. lia.
    + split.
      * intros j Hj Hbefore Hstop.
        destruct (decide (j = k)) as [->|Hne].
        -- exists b, w. split; [done|]. lia.
        -- rewrite (Hbefore k) in Hr by lia. discriminate.
      * intros Hall. rewrite (Hall k) in Hr by lia. discriminate.
Qed.

(** X15: [Example] as written, with its minute and its ten retries, the
    remote call itself taking no time.  Whatever the remote call answers,
    the deadline ends the loop before the bound can: if one of the first five attempts is not to be retried the
    function returns after it, within the minute and without logging;
    otherwise the fifth wait is cut at the minute, there is no sixth
    attempt, and what is logged is the deadline error, never the error of
    the exhausted bound. *)
Theorem Example_outcomes (doremotecall : nat → option goerror)
    (w : World) (fuel : nat) :
  (5 < fuel)%nat →
  (∀ j, (j < 5)%nat →
     (∀ i, (i < j)%nat → shouldretry (doremotecall i) = true) →
     shouldretry (doremotecall j) = false →
     ∃ w',
       Example doremotecall fuel w = Ok (None, S j, w')
       ∧ now w <= now w' < now w + Minute)
  ∧ ((∀ i, (i < 5)%nat → shouldretry (doremotecall i) = true) →
     ∃ w',
       Example doremotecall fuel w = Ok (Some (Some DeadlineExceeded), 5%nat, w')
       ∧ now w' = now w + Minute).
Proof.
  intros Hfuel. unfold Example.
  change (WithTimeout (now w) Background (1 * Minute))
    with ({| ctx_deadline := Some (now w + Minute); ctx_cancelled := None |},
          cancelTimeout).
  cbv iota beta.
  set (c := {| ctx_deadline := Some (now w + Minute); ctx_cancelled := None |}).
  assert (Hnew : New c 10 w = mkBackoff 10 c None 0 0) by reflexivity.
  rewrite Hnew.
  destruct (Example_loop_from doremotecall (now w + Minute) 5 fuel 0
              (mkBackoff 10 c None 0 0) w) as [H1 H2]; [lia| |lia|].
  { unfold Example_inv. simpl.
    repeat split; try done; unfold Minute, Second, Millisecond; lia. }
  split.
  - intros j Hj Hbefore Hstop.
    destruct (H1 j) as (b' & w' & Hloop & Hclock); [lia| |done|].
    { intros i Hi. apply Hbefore. lia. }
    exists w'. rewrite Hloop. done.
  - intros Hall.
    destruct H2 as (b' & w' & Hloop & Hnow & Herr).
    { intros i Hi. apply Hall. lia. }
    exists w'. rewrite Hloop. unfold mbind, result_bind. by rewrite Herr.
Qed.

Lemma Example_outcomes_witness :
  (∀ j, (j < 5)%nat →
     (∀ i, (i < j)%nat → shouldretry (@None goerror) = true) →
     shouldretry (@None goerror) = false →
     ∃ w',
       Example (λ _, None) 6 sample_world = Ok (None, S j, w')
       ∧ now sample_world <= now w' < now sample_world + Minute)
  ∧ ((∀ i, (i < 5)%nat → shouldretry (@None goerror) = true) →
     ∃ w',
       Example (λ _, None) 6 sample_world
       = Ok (Some (Some DeadlineExceeded), 5%nat, w')
       ∧ now w' = now sample_world + Minute).
Proof. apply (Example_outcomes (λ _, None) sample_world 6). lia. Defined.

(** ** errors.go: numbers [int] cannot hold *)

Lemma Atoi_pretty_out_of_range (n : Z) :
  ¬ in_int n → Atoi (pretty n) = None.
Proof.
  unfold in_int. intros Hn. destruct n as [|p|p].
  - unfold int_min, int_max in Hn. lia.
  - change (pretty (Z.pos p)) with (pretty_N_go (N.pos p) "").
    destruct (pretty_N_go_head (N.pos p) "") as (k & r & Hk & Hs); [lia|].
    rewrite Hs, Atoi_unsigned by done. rewrite <- Hs.
    rewrite digits_value_pretty_N_go. simpl.
    destruct (int_min <=? Z.pos p) eqn:E1; [|done].
    destruct (Z.pos p <=? int_max) eqn:E2; [|done].
    apply Z.leb_le in E1, E2. lia.
  - change (pretty (Z.neg p)) with (String "-" (pretty_N_go (N.pos p) "")).
    destruct (pretty_N_go_head (N.pos p) "") as (k & r & Hk & Hs); [lia|].
    unfold Atoi. rewrite Hs, <- Hs.
    rewrite digits_value_pretty_N_go. simpl.
    change (Z.neg p) with (- Z.pos p) in *.
    destruct (int_min <=? - Z.pos p) eqn:E1; [|done].
    destruct (- Z.pos p <=? int_max) eqn:E2; [|done].
    apply Z.leb_le in E1, E2. lia.
Qed.

(** X16: a number of seconds that does not fit an [int] is dropped, not
    clipped.  When the first Retry-After value is the decimal writing of an
    integer outside the 64-bit range, and not a date, the result is zero,
    and the wait it feeds is the plain [Wait]. *)
Theorem RetryAfterHTTP_beyond_int (time_Parse : string → option Time)
    (w : World) (rsp : Response) (n : Z) (others : list string)
    (b : Backoff) :
  n < int_min ∨ int_max < n →
  Header rsp !! "Retry-After" = Some (pretty n :: others) →
  time_Parse (pretty n) = None →
  RetryAfterHTTP time_Parse w rsp = 0
  ∧ WaitFor (RetryAfterHTTP time_Parse w rsp) b w = Wait b w.
Proof.
  intros Hn Hh Hp.
  assert (H0 : RetryAfterHTTP time_Parse w rsp = 0).
  { unfold RetryAfterHTTP, Header_Get. rewrite Hh, Hp.
    rewrite Atoi_pretty_out_of_range; [done|]. unfold in_int. lia. }
  by rewrite H0.
Qed.

Lemma RetryAfterHTTP_beyond_int_witness :
  RetryAfterHTTP sample_Parse sample_world
    (response_with "9223372036854775808") = 0
  ∧ WaitFor (RetryAfterHTTP sample_Parse sample_world
               (response_with "9223372036854775808"))
      (New Background 3 sample_world) sample_world
    = Wait (New Background 3 sample_world) sample_world.
Proof.
  apply (RetryAfterHTTP_beyond_int sample_Parse sample_world
           (response_with "9223372036854775808") 9223372036854775808 []
           (New Background 3 sample_world));
    [right; unfold int_max; lia | reflexivity | reflexivity].
Defined.

(** ** metrics.go: the registry *)


